(** * Stream orchestration and bookmark engine of the singer SDK tap

    A shallow embedding of [singer_sdk/tap_base.py] (class [Tap]) and of
    the sample GitLab streams in
    [singer_sdk/samples/sample_tap_gitlab/gitlab_rest_streams.py].

    Python dictionaries that hold JSON data (the state, a record, the
    configuration, request parameters) are finite maps with extensional
    equality, as Python's [==] on dicts ignores insertion order.  The
    [streams] mapping of a tap is iterated by [sync_all], so it keeps its
    insertion order and is an association list. *)

From stdpp Require Import gmap strings list fin_maps sorting.
From Stdlib Require Import ZArith Ascii.

Set Warnings "-register-all,-clear-no-such-hyp".
Open Scope string_scope.

(** ** Python values *)

Inductive value : Type :=
| VNone
| VBool (b : bool)
| VInt (z : Z)
| VStr (s : string)
| VList (l : list value)
| VDict (d : gmap string value).

Abbreviation pydict := (gmap string value).

(** Truth value of an object, as used by [if x:] and [not x]. *)
Definition truthy (v : value) : bool :=
  match v with
  | VNone => false
  | VBool b => b
  | VInt z => negb (z =? 0)%Z
  | VStr s => negb (bool_decide (s = ""))
  | VList l => match l with [] => false | _ => true end
  | VDict d => negb (bool_decide (d = ∅))
  end.

(** A parameter annotated [Dict[str, Any]] may still be passed [None]. *)
Definition opt_truthy (r : option pydict) : bool :=
  match r with
  | None => false
  | Some d => truthy (VDict d)
  end.

(** ** Exceptions and results *)

Inductive exn : Type :=
| NotImplementedError (msg : string)
| ValueError (msg : string)
| KeyError (key : string)
| IndexError
| TypeError
| AttributeError.

Inductive result (A : Type) : Type :=
| Ok (a : A)
| Raise (e : exn).
Arguments Ok {A} a.
Arguments Raise {A} e.

(** Code that mutates an object and may raise: the object's state is
    threaded through, and is kept as it was at the [raise]. *)
Definition M (S A : Type) : Type := S → result A * S.

Definition ret {S A} (a : A) : M S A := λ s, (Ok a, s).

Definition bind {S A B} (m : M S A) (k : A → M S B) : M S B :=
  λ s, match m s with
       | (Ok a, s') => k a s'
       | (Raise e, s') => (Raise e, s')
       end.

Definition get {S} : M S S := λ s, (Ok s, s).
Definition put {S} (s : S) : M S unit := λ _, (Ok tt, s).
Definition lift {S A} (r : result A) : M S A := λ s, (r, s).
Definition raise {S A} (e : exn) : M S A := λ s, (Raise e, s).

Notation "'do' x <- m ; k" := (bind m (λ x, k))
  (at level 10, x name, m at level 100, k at level 200).
Notation "m >> k" := (bind m (λ _, k))
  (at level 100, k at level 200, right associativity).

(** Code that may raise and touches no object. *)
Definition result_bind {A B} (r : result A) (k : A → result B) : result B :=
  match r with
  | Ok a => k a
  | Raise e => Raise e
  end.

Notation "'try' x <- r ; k" := (result_bind r (λ x, k))
  (at level 10, x name, r at level 100, k at level 200).

(** [for x in xs: body(x)] *)
Fixpoint for_each {S A} (xs : list A) (body : A → M S unit) : M S unit :=
  match xs with
  | [] => ret tt
  | x :: xs' => body x >> for_each xs' body
  end.

(** ** The [singer] bookmark helpers *)

(** Modelled from the spec: [singer.write_bookmark] belongs to the
    singer-python package, which [tap_base.py] imports and which is not
    among the sources.  The bookmark state maps a stream to its bookmark
    record; the state document keeps these records under ["bookmarks"].
    The helper creates the path [state["bookmarks"][tap_stream_id]] where
    it is missing (or [None]) and stores [val] under [key] there.  A
    non-dictionary on the path makes the write fail, before any change. *)
Definition write_bookmark (state : pydict) (tap_stream_id key : string)
    (val : value) : result pydict :=
  match state !! "bookmarks" with
  | None | Some VNone =>
      Ok (<["bookmarks" := VDict {[tap_stream_id := VDict {[key := val]}]}]> state)
  | Some (VDict bms) =>
      match bms !! tap_stream_id with
      | None | Some VNone =>
          Ok (<["bookmarks" :=
                 VDict (<[tap_stream_id := VDict {[key := val]}]> bms)]> state)
      | Some (VDict bm) =>
          Ok (<["bookmarks" :=
                 VDict (<[tap_stream_id := VDict (<[key := val]> bm)]> bms)]> state)
      | Some _ => Raise TypeError
      end
  | Some _ => Raise AttributeError
  end.

(** Modelled from the spec: the value a bookmark record holds under
    [key], read back from the state document ([singer.get_bookmark] with
    no default); [None] where the stream has no such entry. *)
Definition get_bookmark (state : pydict) (tap_stream_id key : string)
    : option value :=
  match state !! "bookmarks" with
  | Some (VDict bms) =>
      match bms !! tap_stream_id with
      | Some (VDict bm) => bm !! key
      | _ => None
      end
  | _ => None
  end.

(** ** Streams *)

(** The attributes of a [Stream] object that [Tap] and the sample streams
    read.  [get_stream_version] is the value [stream.get_stream_version()]
    returns; [parent_stream_types] lists the parent classes by their
    [name]. *)
Record Stream : Type := {
  name : string;
  tap_stream_id : string;
  primary_keys : option (list string);
  replication_key : option string;
  replication_method : string;
  get_stream_version : value;
  parent_stream_types : list string;
}.

(** [stream.primary_keys or []] *)
Definition primary_keys_or_empty (stream : Stream) : list string :=
  match primary_keys stream with
  | Some ks => ks
  | None => []
  end.

(** [{k: v for k, v in latest_record.items() if k in (stream.primary_keys or [])}] *)
Definition pk_values (stream : Stream) (latest_record : pydict) : pydict :=
  filter (λ kv, kv.1 ∈ primary_keys_or_empty stream) latest_record.

(** [latest_record[key]] *)
Definition getitem (d : pydict) (key : string) : result value :=
  match d !! key with
  | Some v => Ok v
  | None => Raise (KeyError key)
  end.

Section Bookmarks.

(** [singer._get_bookmark]: what the call
    [singer._get_bookmark("max_pk_values")] evaluates to.  The call
    passes neither the state nor the stream, so its outcome is a
    property of the installed [singer] module alone. *)
Variable _get_bookmark : string → result value.

(** [Tap.merge_bookmarks], on [self._state]. *)
Definition merge_bookmarks (stream : Stream)
    (new_bookmarks : list (string * value)) : M pydict unit :=
  for_each new_bookmarks (λ kv,
    do _state <- get;
    do _state' <- lift (write_bookmark _state (tap_stream_id stream) kv.1 kv.2);
    put _state').

(** [Tap.update_bookmarks], on [self._state]. *)
Definition update_bookmarks (stream : Stream)
    (latest_record : option pydict) : M pydict unit :=
  do _state <- get;
  (if negb (truthy (VDict _state))
   then merge_bookmarks stream [("version", get_stream_version stream)]
   else ret tt) >>
  match latest_record with
  | Some record =>
      if truthy (VDict record) then
        if bool_decide (replication_method stream = "FULL_TABLE") then
          do max_pk_values <- lift (_get_bookmark "max_pk_values");
          if truthy max_pk_values
          then merge_bookmarks stream
                 [("last_pk_fetched", VDict (pk_values stream record))]
          else ret tt
        else if bool_decide
                  (replication_method stream ∈ ["INCREMENTAL"; "LOG_BASED"])
        then
          match replication_key stream with
          | Some rk =>
              do v <- lift (getitem record rk);
              merge_bookmarks stream
                [("replication_key", VStr rk); ("replication_key_value", v)]
          | None => ret tt
          end
        else ret tt
      else ret tt
  | None => ret tt
  end.

(** The record loop of a sync: [update_bookmarks] on each record in
    order; an exception ends the loop. *)
Definition update_bookmarks_each (stream : Stream)
    (records : list pydict) : M pydict unit :=
  for_each records (λ r, update_bookmarks stream (Some r)).

End Bookmarks.

(** ** The tap object *)

(** The [streams] mapping: a dict iterated in insertion order. *)
Abbreviation stream_dict := (list (string * Stream)).

(** [d[k] = v]: a present key keeps its position and takes the new value,
    a new key goes to the end. *)
Fixpoint setitem (d : stream_dict) (k : string) (v : Stream) : stream_dict :=
  match d with
  | [] => [(k, v)]
  | (k', v') :: d' =>
      if bool_decide (k' = k) then (k', v) :: d'
      else (k', v') :: setitem d' k v
  end.

(** [d.get(k)] *)
Fixpoint lookup_stream (d : stream_dict) (k : string) : option Stream :=
  match d with
  | [] => None
  | (k', v) :: d' => if bool_decide (k' = k) then Some v else lookup_stream d' k
  end.

(** [k in d] *)
Definition contains (d : stream_dict) (k : string) : bool :=
  bool_decide (k ∈ d.*1).

(** [d.keys()] and [d.values()] *)
Definition keys (d : stream_dict) : list string := d.*1.
Definition values (d : stream_dict) : list Stream := d.*2.

(** [sorted] on strings. *)
Definition sorted (l : list string) : list string := merge_sort String.le l.

(** What a run does, in the order it does it: the calls of
    [load_streams] and [apply_catalog] made while the stream mapping is
    built, and the start and the return of each [stream.sync()]. *)
Inductive event : Type :=
| LoadStreams
| ApplyCatalog (stream_name : string)
| SyncBegin (stream_name : string)
| SyncEnd (stream_name : string).

Global Instance event_eq_dec : EqDecision event.
Proof. solve_decision. Defined.

(** The instance attributes of a [Tap]; [tap_name] is [self.name], and
    [trace] records the events of the run so far. *)
Record Tap : Type := {
  tap_name : string;
  config : pydict;
  _input_catalog : option pydict;
  _state : pydict;
  _streams : option stream_dict;
  trace : list event;
}.

Definition set_streams (d : stream_dict) : M Tap unit :=
  λ self, (Ok tt, {| tap_name := tap_name self; config := config self;
                     _input_catalog := _input_catalog self;
                     _state := _state self;
                     _streams := Some d;
                     trace := trace self |}).

Definition log (e : event) : M Tap unit :=
  λ self, (Ok tt, {| tap_name := tap_name self; config := config self;
                     _input_catalog := _input_catalog self;
                     _state := _state self;
                     _streams := _streams self;
                     trace := trace self ++ [e] |}).

(** Run code that works on [self._state]. *)
Definition on_state {A} (m : M pydict A) : M Tap A :=
  λ self, let '(r, st) := m (_state self) in
          (r, {| tap_name := tap_name self; config := config self;
                 _input_catalog := _input_catalog self;
                 _state := st;
                 _streams := _streams self;
                 trace := trace self |}).

(** [Tap.discover_streams] *)
Definition discover_streams (self : Tap) : result (list Stream) :=
  Raise (NotImplementedError
    ("Tap '" ++ tap_name self ++ "' does not support discovery. "
     ++ "Please set the '--catalog' command line argument and try again.")).

(** [Tap.load_streams], as the base class defines it. *)
Definition Tap_load_streams (self : Tap) : result (list Stream) :=
  discover_streams self.

Section TapMethods.

(** [self.load_streams()]: the method of the tap's class, the one
    above or a subclass's override. *)
Variable load_streams : Tap → result (list Stream).

(** [stream.apply_catalog(catalog)]: the stream as the call leaves it. *)
Variable apply_catalog : Stream → pydict → result Stream.

(** [stream.sync()], as it acts on the state. *)
Variable sync : Stream → M pydict unit.

(** The builtin [repr]. *)
Variable repr : value → string.

(** The property [Tap.streams]. *)
Definition streams : M Tap stream_dict :=
  do self <- get;
  match _streams self with
  | Some d => ret d
  | None =>
      set_streams [] >>
      log LoadStreams >>
      do self <- get;
      do loaded <- lift (load_streams self);
      for_each loaded (λ stream,
        do self <- get;
        do stream <-
          match _input_catalog self with
          | Some catalog =>
              if truthy (VDict catalog)
              then log (ApplyCatalog (name stream)) >>
                   lift (apply_catalog stream catalog)
              else ret stream
          | None => ret stream
          end;
        do self <- get;
        set_streams (setitem (default [] (_streams self)) (name stream) stream)) >>
      do self <- get;
      ret (default [] (_streams self))
  end.

(** One call [stream.sync()]. *)
Definition run_sync (stream : Stream) : M Tap unit :=
  log (SyncBegin (name stream)) >>
  on_state (sync stream) >>
  log (SyncEnd (name stream)).

(** [Tap.sync_one] *)
Definition sync_one (stream_name : string) : M Tap unit :=
  do d <- streams;
  if negb (contains d stream_name) then
    do d <- streams;
    raise (ValueError
      ("Could not find stream '" ++ stream_name ++ "' in streams list: "
       ++ repr (VList (VStr <$> sorted (keys d)))))
  else
    do d <- streams;
    match lookup_stream d stream_name with
    | Some stream => run_sync stream
    | None => raise (KeyError stream_name)
    end.

(** [Tap.sync_all] *)
Definition sync_all : M Tap unit :=
  do d <- streams;
  for_each (values d) run_sync.

End TapMethods.

(** ** The sample GitLab streams *)

(** [s.split(sep)] for a separator of one character. *)
Fixpoint split (sep : ascii) (s : string) : list string :=
  match s with
  | EmptyString => [""]
  | String c s' =>
      if bool_decide (c = sep) then "" :: split sep s'
      else match split sep s' with
           | x :: xs => String c x :: xs
           | [] => [String c ""]
           end
  end.

(** [l[i]] *)
Definition index {A} (l : list A) (i : nat) : result A :=
  match l !! i with
  | Some x => Ok x
  | None => Raise IndexError
  end.

(** [d.get(key)] *)
Definition dict_get (d : pydict) (key : string) : value :=
  default VNone (d !! key).

(** [GitlabStream.get_params] *)
Definition GitlabStream_get_params (config : pydict) (substream_id : string)
    : result pydict :=
  try part <- index (split ","%char substream_id) 0;
  try project_id <- index (split "="%char part) 1;
  Ok (<["start_date" := dict_get config "start_date"]>
        {["project_id" := VStr project_id]}).

Section ProjectBased.

(** The builtin [repr]; [str] of a string is the string itself and
    agrees with [repr] on the other values here. *)
Variable repr : value → string.

Definition str (v : value) : string :=
  match v with
  | VStr s => s
  | _ => repr v
  end.

(** What [for x in v] yields for a string (its characters, one per code
    point) and for a dict (its keys, in insertion order).  The values
    here keep neither code points nor insertion order, so this is left
    to the builtin. *)
Variable iter_str_or_dict : value → list value.

(** [for x in v]: the elements of a list; a string or a dict as the
    builtin walks it; nothing else here can be iterated. *)
Definition iter (v : value) : result (list value) :=
  match v with
  | VList l => Ok l
  | VStr _ | VDict _ => Ok (iter_str_or_dict v)
  | _ => Raise TypeError
  end.

(** [ProjectBasedStream.get_substream_ids] *)
Definition get_substream_ids (config : pydict) : result (list string) :=
  try ids <- iter (dict_get config "project_ids");
  Ok ((λ id, "project_id=" ++ str id) <$> ids).

End ProjectBased.

Section EpicIssues.

(** Modelled from the spec: [helpers.read_stream_state] is not among
    the sources.  Called as [read_stream_state(state, (name,
    substream_id))] it looks up, in the bookmark state, the state kept
    for that substream of the stream, a dictionary. *)
Variable read_stream_state : pydict → string * string → pydict.

(** [EpicIssuesStream.get_params]; [state] is [self.state], and
    [self.name] is ["epic_issues"]. *)
Definition EpicIssuesStream_get_params (state config : pydict)
    (substream_id : string) : result pydict :=
  let substream_state := read_stream_state state ("epic_issues", substream_id) in
  if negb (bool_decide (is_Some (substream_state !! "epic_id"))) then
    Raise (ValueError "Cannot sync epic issues without already known epic IDs.")
  else
    try result <- GitlabStream_get_params config substream_id;
    Ok (substream_state ∪ result).

End EpicIssues.

(** ** Notions used in the statements *)

(** The path [state["bookmarks"][tap_stream_id]] can be written: no
    non-dictionary sits on it. *)
Definition bookmark_path_ok (state : pydict) (tap_stream_id : string) : bool :=
  match state !! "bookmarks" with
  | None | Some VNone => true
  | Some (VDict bms) =>
      match bms !! tap_stream_id with
      | None | Some VNone | Some (VDict _) => true
      | Some _ => false
      end
  | Some _ => false
  end.

(** The state once the version marker of [stream] is in: an empty state
    gets the marker as its only bookmark, any other state is as it was. *)
Definition with_version (stream : Stream) (state : pydict) : pydict :=
  if bool_decide (state = ∅)
  then {["bookmarks" :=
           VDict {[tap_stream_id stream :=
                     VDict {["version" := get_stream_version stream]}]}]}
  else state.

(** ** Sample inputs *)

Definition ProjectsStream : Stream :=
  {| name := "projects"; tap_stream_id := "projects";
     primary_keys := Some ["id"]; replication_key := None;
     replication_method := "FULL_TABLE";
     get_stream_version := VInt 1; parent_stream_types := [] |}.

Definition IssuesByUpdate : Stream :=
  {| name := "issues"; tap_stream_id := "issues";
     primary_keys := Some ["id"]; replication_key := Some "updated_at";
     replication_method := "INCREMENTAL";
     get_stream_version := VInt 1; parent_stream_types := [] |}.

(** [singer._get_bookmark] on a [singer] module without that attribute,
    and on one where the lookup finds nothing. *)
Definition no_such_attribute : string → result value := λ _, Raise AttributeError.
Definition finds_nothing : string → result value := λ _, Ok VNone.


Definition record_7 : pydict :=
  {["id" := VInt 7; "updated_at" := VStr "2021-01-01"]}.

Definition record_3 : pydict :=
  {["id" := VInt 3; "updated_at" := VStr "2020-06-30"]}.

(** A state in which another stream already has a bookmark. *)
Definition state_with_projects : pydict :=
  {["bookmarks" := VDict {["projects" := VDict {["version" := VInt 1]}]}]}.

(** The sample streams [EpicsStream] and [EpicIssuesStream]; the latter
    declares [parent_stream_types = [EpicsStream]]. *)
Definition EpicsStream : Stream :=
  {| name := "epics"; tap_stream_id := "epics";
     primary_keys := Some ["id"]; replication_key := None;
     replication_method := "FULL_TABLE";
     get_stream_version := VInt 1; parent_stream_types := [] |}.

Definition EpicIssuesStream : Stream :=
  {| name := "epic_issues"; tap_stream_id := "epic_issues";
     primary_keys := Some ["id"]; replication_key := None;
     replication_method := "FULL_TABLE";
     get_stream_version := VInt 1; parent_stream_types := ["epics"] |}.

(** A tap as [__init__] leaves it, with no catalog and an empty state. *)
Definition new_tap (tap_name : string) (config : pydict) : Tap :=
  {| tap_name := tap_name; config := config; _input_catalog := None;
     _state := ∅; _streams := None; trace := [] |}.

(** ** Notions about a run *)

Definition is_sync_event (e : event) : bool :=
  match e with
  | SyncBegin _ | SyncEnd _ => true
  | _ => false
  end.

Definition is_load_event (e : event) : bool :=
  match e with
  | LoadStreams => true
  | _ => false
  end.

(** The sync events of a trace, and the number of stream loadings in it. *)
Definition sync_events (tr : list event) : list event :=
  List.filter is_sync_event tr.

Definition loads (tr : list event) : nat :=
  length (List.filter is_load_event tr).

(** The events of syncing the given streams one after the other, each to
    its end. *)
Definition sync_schedule (ss : list Stream) : list event :=
  flat_map (λ s, [SyncBegin (name s); SyncEnd (name s)]) ss.

(** In the trace, whenever the sync of a stream of [d] begins, the sync
    of each of its parent streams has ended before. *)
Definition parents_complete_first (d : stream_dict) (tr : list event) : Prop :=
  ∀ (i : nat) (child : Stream) (p : string),
    child ∈ values d →
    tr !! i = Some (SyncBegin (name child)) →
    p ∈ parent_stream_types child →
    ∃ j, j < i ∧ tr !! j = Some (SyncEnd p).

(** In the mapping, every stream comes after each of its parents. *)
Definition parents_registered_first (d : stream_dict) : Prop :=
  ∀ (k : nat) (s : Stream) (p : string),
    values d !! k = Some s →
    p ∈ parent_stream_types s →
    ∃ j s', j < k ∧ values d !! j = Some s' ∧ name s' = p.

(** [n] accesses of the property [streams], one after the other. *)
Fixpoint access_streams (streams : M Tap stream_dict) (n : nat) (self : Tap)
    : Tap :=
  match n with
  | O => self
  | S n' => access_streams streams n' (streams self).2
  end.

(** Two states of a tap that agree on all but the stream mapping and the
    trace. *)
Definition same_run_data (self self' : Tap) : Prop :=
  tap_name self' = tap_name self ∧ config self' = config self
  ∧ _input_catalog self' = _input_catalog self ∧ _state self' = _state self.

(** ** Sample collaborators *)

(** A tap class whose [load_streams] lists the epics before their
    issues, and one that lists them the other way round. *)
Definition loads_epics_first : Tap → result (list Stream) :=
  λ _, Ok [EpicsStream; EpicIssuesStream].
Definition loads_epic_issues_first : Tap → result (list Stream) :=
  λ _, Ok [EpicIssuesStream; EpicsStream].

(** Streams whose [apply_catalog] changes nothing and whose [sync] finds
    no record. *)
Definition catalog_changes_nothing : Stream → pydict → result Stream :=
  λ stream _, Ok stream.
Definition sync_finds_nothing : Stream → M pydict unit := λ _, ret tt.

(** A stand-in for [repr], which only words an error message. *)
Definition repr_elided : value → string := λ _, "[...]".

(** A stand-in for the iteration of strings and dicts, for
    configurations that hold neither under [project_ids]. *)
Definition iter_elided : value → list value := λ _, [].

Definition epics_first : stream_dict :=
  [("epics", EpicsStream); ("epic_issues", EpicIssuesStream)].
Definition epic_issues_first : stream_dict :=
  [("epic_issues", EpicIssuesStream); ("epics", EpicsStream)].

(** Two outcomes of [helpers.read_stream_state]: the substream state
    holds the epic's id, or it holds nothing. *)
Definition epic_7_known : pydict → string * string → pydict :=
  λ _ _, {["epic_id" := VInt 7]}.
Definition nothing_known : pydict → string * string → pydict := λ _ _, ∅.

Definition gitlab_config : pydict :=
  {["project_ids" := VList [VStr "ns/proj"]]}.

(** ** Further sample inputs *)

(** A [singer] module whose lookup yields a true value. *)
Definition finds_values : string → result value := λ _, Ok (VBool true).

(** A state whose ["bookmarks"] entry is not a dictionary. *)
Definition state_with_broken_bookmarks : pydict :=
  {["bookmarks" := VInt 0]}.

(** A record without the replication key of [IssuesByUpdate]. *)
Definition record_without_key : pydict := {["id" := VInt 9]}.

(** A stream with a replication method [update_bookmarks] does not know. *)
Definition UnknownMethodStream : Stream :=
  {| name := "commits"; tap_stream_id := "commits";
     primary_keys := Some ["id"]; replication_key := Some "updated_at";
     replication_method := "SNAPSHOT";
     get_stream_version := VInt 1; parent_stream_types := [] |}.

(** The tap at the moment [streams] calls [self.load_streams()]: the
    mapping is already set to the empty dict. *)
Definition at_load (self : Tap) : Tap :=
  {| tap_name := tap_name self; config := config self;
     _input_catalog := _input_catalog self; _state := _state self;
     _streams := Some []; trace := trace self ++ [LoadStreams] |}.

(** A tap class whose [load_streams] fails. *)
Definition load_fails : Tap → result (list Stream) :=
  λ _, Raise (ValueError "no streams").

(** A [sync] that fails for the epics and finds nothing elsewhere. *)
Definition sync_fails_for_epics : Stream → M pydict unit :=
  λ stream, if bool_decide (name stream = "epics")
            then raise (ValueError "fetch failed") else ret tt.

(** The character [c] does not occur in [s]. *)
Definition free_of (c : ascii) (s : string) : Prop :=
  c ∉ String.list_ascii_of_string s.

(** ** More of the sample GitLab streams *)

(** [GitlabStream.authenticator]: the [http_headers] it hands to
    [SimpleAuthenticator]. *)
Definition authenticator_http_headers (config : pydict) : pydict :=
  let http_headers : pydict :=
    {["Private-Token" := dict_get config "auth_token"]} in
  if truthy (dict_get config "user_agent")
  then <["User-Agent" := dict_get config "user_agent"]> http_headers
  else http_headers.

(** A catalog with one entry, and an [apply_catalog] that marks the
    stream by setting its version. *)
Definition some_catalog : pydict := {["streams" := VList []]}.
Definition catalog_sets_version : Stream → pydict → result Stream :=
  λ stream _, Ok {| name := name stream; tap_stream_id := tap_stream_id stream;
                    primary_keys := primary_keys stream;
                    replication_key := replication_key stream;
                    replication_method := replication_method stream;
                    get_stream_version := VInt 2;
                    parent_stream_types := parent_stream_types stream |}.

Definition tap_with_catalog : Tap :=
  {| tap_name := "tap-gitlab"; config := ∅; _input_catalog := Some some_catalog;
     _state := ∅; _streams := None; trace := [] |}.
(** * Properties of the bookmark engine *)

(** From here on [++] is the append of lists; the append of strings is
    written with its scope. *)
Close Scope string_scope.

Ltac unfold_monad :=
  unfold bind, get, put, lift, ret, raise in *; simpl in *.

Lemma write_bookmark_ok st id k v :
  bookmark_path_ok st id = true → ∃ st', write_bookmark st id k v = Ok st'.
Proof.
  unfold bookmark_path_ok, write_bookmark. intros H.
  repeat case_match; try discriminate; eauto.
Qed.

Lemma write_bookmark_raise st id k v e :
  write_bookmark st id k v = Raise e → bookmark_path_ok st id = false.
Proof.
  unfold bookmark_path_ok, write_bookmark. intros H.
  repeat case_match; try discriminate; reflexivity.
Qed.

Lemma write_bookmark_path_ok st id k v st' :
  write_bookmark st id k v = Ok st' → bookmark_path_ok st' id = true.
Proof.
  unfold bookmark_path_ok, write_bookmark. intros H.
  repeat case_match; simplify_eq; simplify_map_eq; done.
Qed.

Lemma write_bookmark_lookup st id k v st' :
  write_bookmark st id k v = Ok st' → get_bookmark st' id k = Some v.
Proof.
  unfold write_bookmark, get_bookmark. intros H.
  repeat case_match; simplify_eq; simplify_map_eq; done.
Qed.

Lemma write_bookmark_frame st id k v st' id' k' :
  write_bookmark st id k v = Ok st' →
  id' ≠ id ∨ k' ≠ k →
  get_bookmark st' id' k' = get_bookmark st id' k'.
Proof.
  unfold write_bookmark, get_bookmark. intros H Hne.
  destruct (decide (id' = id)) as [->|Hid].
  - destruct Hne as [?|Hk]; [done|].
    repeat case_match; simplify_eq; simplify_map_eq; done.
  - repeat case_match; simplify_eq; simplify_map_eq; done.
Qed.

Lemma write_bookmark_nonempty st id k v st' :
  write_bookmark st id k v = Ok st' → st' ≠ ∅.
Proof.
  unfold write_bookmark. intros H.
  repeat case_match; simplify_eq; apply insert_non_empty.
Qed.

Lemma merge_bookmarks_cons stream k v nb st :
  merge_bookmarks stream ((k, v) :: nb) st =
  match write_bookmark st (tap_stream_id stream) k v with
  | Ok st1 => merge_bookmarks stream nb st1
  | Raise e => (Raise e, st)
  end.
Proof.
  unfold merge_bookmarks. simpl. unfold_monad.
  destruct (write_bookmark st (tap_stream_id stream) k v); reflexivity.
Qed.

Lemma merge_bookmarks_nil stream st : merge_bookmarks stream [] st = (Ok tt, st).
Proof. reflexivity. Qed.

Lemma merge_bookmarks_frame stream nb : ∀ st r st' id' k',
  merge_bookmarks stream nb st = (r, st') →
  id' ≠ tap_stream_id stream ∨ k' ∉ nb.*1 →
  get_bookmark st' id' k' = get_bookmark st id' k'.
Proof.
  induction nb as [|[k v] nb IH]; intros st r st' id' k' Hm Hne.
  - rewrite merge_bookmarks_nil in Hm. by simplify_eq.
  - rewrite merge_bookmarks_cons in Hm.
    destruct (write_bookmark st (tap_stream_id stream) k v) as [st1|e] eqn:Hw;
      [|by simplify_eq].
    simpl in Hne. rewrite not_elem_of_cons in Hne.
    rewrite (IH _ _ _ id' k' Hm) by tauto.
    apply (write_bookmark_frame _ _ _ _ _ _ _ Hw). tauto.
Qed.

Lemma merge_bookmarks_ok stream nb : ∀ st,
  bookmark_path_ok st (tap_stream_id stream) = true →
  ∃ st', merge_bookmarks stream nb st = (Ok tt, st')
         ∧ bookmark_path_ok st' (tap_stream_id stream) = true.
Proof.
  induction nb as [|[k v] nb IH]; intros st Hok.
  - by exists st.
  - rewrite merge_bookmarks_cons.
    destruct (write_bookmark_ok _ _ k v Hok) as [st1 Hw]. rewrite Hw.
    apply IH. by eapply write_bookmark_path_ok.
Qed.

Lemma merge_bookmarks_single stream k v st st' :
  merge_bookmarks stream [(k, v)] st = (Ok tt, st') →
  get_bookmark st' (tap_stream_id stream) k = Some v.
Proof.
  rewrite merge_bookmarks_cons.
  destruct (write_bookmark st (tap_stream_id stream) k v) as [st1|e] eqn:Hw;
    [|done].
  rewrite merge_bookmarks_nil. intros ?; simplify_eq.
  by eapply write_bookmark_lookup.
Qed.

Lemma merge_bookmarks_last stream nb k v st st' :
  merge_bookmarks stream (nb ++ [(k, v)]) st = (Ok tt, st') →
  get_bookmark st' (tap_stream_id stream) k = Some v.
Proof.
  revert st. induction nb as [|[k0 v0] nb IH]; intros st Hm.
  - by eapply merge_bookmarks_single.
  - simpl in Hm. rewrite merge_bookmarks_cons in Hm.
    destruct (write_bookmark st (tap_stream_id stream) k0 v0); [|done].
    by eapply IH.
Qed.

Lemma with_version_nonempty stream st : with_version stream st ≠ ∅.
Proof.
  unfold with_version. case_bool_decide; [|done].
  apply insert_non_empty.
Qed.

Lemma with_version_id stream st : st ≠ ∅ → with_version stream st = st.
Proof. intros. unfold with_version. by rewrite bool_decide_eq_false_2. Qed.

Lemma with_version_path_ok stream st :
  bookmark_path_ok st (tap_stream_id stream) = true →
  bookmark_path_ok (with_version stream st) (tap_stream_id stream) = true.
Proof.
  intros. unfold with_version. case_bool_decide; [|done].
  unfold bookmark_path_ok. by simplify_map_eq.
Qed.

Lemma get_bookmark_with_version stream st id k :
  get_bookmark (with_version stream st) id k =
  if bool_decide (st = ∅)
  then if bool_decide (id = tap_stream_id stream ∧ k = "version")
       then Some (get_stream_version stream) else None
  else get_bookmark st id k.
Proof.
  unfold with_version. case_bool_decide as Hst; [|done].
  unfold get_bookmark. rewrite lookup_singleton_eq.
  destruct (decide (id = tap_stream_id stream)) as [->|Hid].
  - rewrite lookup_singleton_eq.
    destruct (decide (k = "version")) as [->|Hk].
    + rewrite lookup_singleton_eq. by rewrite bool_decide_eq_true_2.
    + rewrite lookup_singleton_ne by done.
      by rewrite bool_decide_eq_false_2 by tauto.
  - rewrite lookup_singleton_ne by done.
    by rewrite bool_decide_eq_false_2 by tauto.
Qed.

Lemma get_bookmark_empty id k : get_bookmark ∅ id k = None.
Proof. unfold get_bookmark. by rewrite lookup_empty. Qed.

Section BookmarkProofs.

Variable g : string → result value.

(** An empty state first takes the version marker; the call then goes
    on as it does on a state that is not empty. *)
Lemma update_bookmarks_version_phase stream latest_record st :
  update_bookmarks g stream latest_record st =
  update_bookmarks g stream latest_record (with_version stream st).
Proof.
  destruct (decide (st = ∅)) as [->|Hst].
  - unfold with_version. rewrite bool_decide_eq_true_2 by done.
    unfold update_bookmarks.
    match goal with
    | |- context [bind _ (λ _ : unit, ?K)] => generalize K
    end.
    intros K. unfold bind at 1 2 3 4. unfold get. simpl.
    rewrite bool_decide_eq_true_2 by done.
    rewrite bool_decide_eq_false_2 by apply insert_non_empty. simpl.
    rewrite merge_bookmarks_cons.
    unfold write_bookmark. rewrite lookup_empty, insert_empty.
    rewrite merge_bookmarks_nil. reflexivity.
  - by rewrite with_version_id.
Qed.

Lemma truthy_nonempty (st : pydict) : st ≠ ∅ → truthy (VDict st) = true.
Proof. intros. simpl. by rewrite bool_decide_eq_false_2. Qed.

Lemma update_bookmarks_falsy stream latest_record st :
  st ≠ ∅ → opt_truthy latest_record = false →
  update_bookmarks g stream latest_record st = (Ok tt, st).
Proof.
  intros Hst Hr. unfold update_bookmarks. unfold_monad.
  rewrite bool_decide_eq_false_2 by done. simpl.
  destruct latest_record as [record|]; [|done].
  simpl in Hr. by rewrite Hr.
Qed.

Lemma update_bookmarks_full_table stream record st :
  st ≠ ∅ → replication_method stream = "FULL_TABLE" →
  truthy (VDict record) = true →
  update_bookmarks g stream (Some record) st =
  match g "max_pk_values" with
  | Ok max_pk_values =>
      if truthy max_pk_values
      then merge_bookmarks stream
             [("last_pk_fetched", VDict (pk_values stream record))] st
      else (Ok tt, st)
  | Raise e => (Raise e, st)
  end.
Proof.
  intros Hst Hm Hr. unfold update_bookmarks. unfold_monad.
  rewrite bool_decide_eq_false_2 by done. simpl. simpl in Hr. rewrite Hr.
  rewrite bool_decide_eq_true_2 by done.
  destruct (g "max_pk_values") as [m|e]; [|done].
  by destruct (truthy m).
Qed.

Lemma update_bookmarks_incremental stream rk record st :
  st ≠ ∅ →
  replication_method stream ∈ ["INCREMENTAL"; "LOG_BASED"] →
  replication_key stream = Some rk →
  truthy (VDict record) = true →
  update_bookmarks g stream (Some record) st =
  match getitem record rk with
  | Ok v => merge_bookmarks stream
              [("replication_key", VStr rk); ("replication_key_value", v)] st
  | Raise e => (Raise e, st)
  end.
Proof.
  intros Hst Hm Hrk Hr. unfold update_bookmarks. unfold_monad.
  rewrite bool_decide_eq_false_2 by done. simpl. simpl in Hr. rewrite Hr.
  rewrite bool_decide_eq_false_2.
  2:{ intros Heq. rewrite Heq in Hm. set_unfold. naive_solver. }
  rewrite bool_decide_eq_true_2 by done. rewrite Hrk.
  by destruct (getitem record rk).
Qed.

(** Whatever the record and the outcome, a call on a state that is not
    empty touches at most three keys of the stream's own bookmark. *)
Lemma update_bookmarks_frame stream latest_record st r st' id' k' :
  st ≠ ∅ →
  update_bookmarks g stream latest_record st = (r, st') →
  id' ≠ tap_stream_id stream
  ∨ k' ∉ ["last_pk_fetched"; "replication_key"; "replication_key_value"] →
  get_bookmark st' id' k' = get_bookmark st id' k'.
Proof.
  intros Hst Hu Hne. unfold update_bookmarks in Hu. unfold_monad.
  rewrite bool_decide_eq_false_2 in Hu by done. simpl in Hu.
  repeat case_match; simplify_eq; try done;
    (eapply merge_bookmarks_frame; [eassumption|]);
    (destruct Hne as [?|Hk]; [by left|right]);
    simpl; set_unfold; naive_solver.
Qed.

End BookmarkProofs.

(** ** Empty or absent record (C10) *)

(** C10. For every state and every stream, [update_bookmarks] with an
    empty or absent [latest_record] returns normally, and the state it
    leaves is the one it found, but for the version marker an empty state
    receives.  Every bookmark entry that existed is unchanged, and no
    [last_pk_fetched] or [replication_key_value] entry of any stream is
    added or modified. *)
Theorem update_bookmarks_without_record
    (g : string → result value) (stream : Stream)
    (latest_record : option pydict) (st : pydict) :
  opt_truthy latest_record = false →
  update_bookmarks g stream latest_record st = (Ok tt, with_version stream st)
  ∧ (st ≠ ∅ → with_version stream st = st)
  ∧ (∀ id k v, get_bookmark st id k = Some v →
               get_bookmark (with_version stream st) id k = Some v)
  ∧ (∀ id k, k ∈ ["last_pk_fetched"; "replication_key_value"] →
             get_bookmark (with_version stream st) id k = get_bookmark st id k).
Proof.
  intros Hr. split_and!.
  - rewrite update_bookmarks_version_phase.
    apply update_bookmarks_falsy; [apply with_version_nonempty|done].
  - apply with_version_id.
  - intros id k v Hv. destruct (decide (st = ∅)) as [->|Hst].
    + by rewrite get_bookmark_empty in Hv.
    + by rewrite with_version_id.
  - intros id k Hk. rewrite get_bookmark_with_version.
    case_bool_decide as Hst; [|done]. subst st.
    rewrite get_bookmark_empty, bool_decide_eq_false_2; [done|].
    intros [_ ->]. rewrite !elem_of_cons, elem_of_nil in Hk.
    destruct Hk as [?|[?|?]]; done.
Qed.

Lemma update_bookmarks_without_record_witness :
  opt_truthy (Some ∅) = false
  ∧ update_bookmarks no_such_attribute ProjectsStream (Some ∅) ∅
    = (Ok tt, with_version ProjectsStream ∅).
Proof.
  split; [reflexivity|].
  apply (update_bookmarks_without_record no_such_attribute ProjectsStream
           (Some ∅) ∅).
  reflexivity.
Defined.

(** ** The version marker (C3) *)

(** C3, as stated, fails: a stream without any bookmark, in a state that
    holds a bookmark of another stream, gets its first bookmark written
    and no version marker with it. *)
Lemma version_marker_counterexample :
  ¬ (∀ (g : string → result value) (stream : Stream) (record st : pydict),
       (∀ k, get_bookmark st (tap_stream_id stream) k = None) →
       is_Some (get_bookmark (update_bookmarks g stream (Some record) st).2
                  (tap_stream_id stream) "version")).
Proof.
  intros H.
  specialize (H no_such_attribute IssuesByUpdate record_7 state_with_projects).
  assert (Hnone : ∀ k, get_bookmark state_with_projects
                         (tap_stream_id IssuesByUpdate) k = None).
  { intros k. unfold get_bookmark, state_with_projects. by simplify_map_eq. }
  destruct (H Hnone) as [v Hv]. vm_compute in Hv. discriminate Hv.
Qed.

(** C3, amended. [update_bookmarks] writes the version marker into the
    stream's bookmark, before it handles the record and whatever the
    record then leads to, exactly when the whole state is empty at the
    call.  On a state that is not empty (bookmarks of other streams, or
    anything else) the version entry of every stream stays as it was. *)
Theorem update_bookmarks_version_marker
    (g : string → result value) (stream : Stream)
    (latest_record : option pydict) (st : pydict) (id : string) :
  get_bookmark (update_bookmarks g stream latest_record st).2 id "version" =
  if bool_decide (st = ∅ ∧ id = tap_stream_id stream)
  then Some (get_stream_version stream)
  else get_bookmark st id "version".
Proof.
  rewrite update_bookmarks_version_phase.
  destruct (update_bookmarks g stream latest_record (with_version stream st))
    as [r st'] eqn:Hu. simpl.
  rewrite (update_bookmarks_frame g stream latest_record _ r st' id "version"
             (with_version_nonempty stream st) Hu).
  2:{ right. rewrite !elem_of_cons, elem_of_nil. intros [?|[?|[?|?]]]; done. }
  clear Hu. rewrite get_bookmark_with_version.
  repeat case_bool_decide; try reflexivity; try (exfalso; tauto).
  subst st. by rewrite get_bookmark_empty.
Qed.

(** ** Replication-key bookmarks (C4) *)

Lemma update_bookmarks_each_cons g stream r rs st :
  update_bookmarks_each g stream (r :: rs) st =
  match update_bookmarks g stream (Some r) st with
  | (Ok _, st1) => update_bookmarks_each g stream rs st1
  | (Raise e, st1) => (Raise e, st1)
  end.
Proof. reflexivity. Qed.

Lemma update_bookmarks_incremental_step g stream rk record v st :
  replication_method stream ∈ ["INCREMENTAL"; "LOG_BASED"] →
  replication_key stream = Some rk →
  record !! rk = Some v →
  bookmark_path_ok st (tap_stream_id stream) = true →
  ∃ st', update_bookmarks g stream (Some record) st = (Ok tt, st')
         ∧ get_bookmark st' (tap_stream_id stream) "replication_key_value" = Some v
         ∧ bookmark_path_ok st' (tap_stream_id stream) = true.
Proof.
  intros Hm Hrk Hv Hok.
  rewrite update_bookmarks_version_phase.
  rewrite (update_bookmarks_incremental g stream rk); try done.
  - unfold getitem. rewrite Hv.
    destruct (merge_bookmarks_ok stream
                [("replication_key", VStr rk); ("replication_key_value", v)]
                (with_version stream st)) as (st' & Hmerge & Hok').
    { by apply with_version_path_ok. }
    exists st'. split_and!; try done.
    by apply (merge_bookmarks_last stream [("replication_key", VStr rk)]
                "replication_key_value" v (with_version stream st)).
  - apply with_version_nonempty.
  - apply truthy_nonempty. intros ->. by rewrite lookup_empty in Hv.
Qed.

(** C4. For a stream that replicates INCREMENTAL or LOG_BASED and has a
    replication key, [update_bookmarks] stores the record's value of that
    key as [replication_key_value], whatever value the state held before:
    nothing is compared and nothing is rejected.  So after the records of
    any sequence, in any order of their key values and hence also a
    non-decreasing one, the stored value is the one of the last record. *)
Theorem update_bookmarks_replication_key_value
    (g : string → result value) (stream : Stream) (rk : string)
    (st : pydict) (records : list pydict) (last : pydict) (v : value) :
  replication_method stream ∈ ["INCREMENTAL"; "LOG_BASED"] →
  replication_key stream = Some rk →
  bookmark_path_ok st (tap_stream_id stream) = true →
  Forall (λ r : pydict, is_Some (r !! rk)) records →
  last !! rk = Some v →
  (∃ st1, update_bookmarks g stream (Some last) st = (Ok tt, st1)
          ∧ get_bookmark st1 (tap_stream_id stream) "replication_key_value"
            = Some v)
  ∧ (∃ st', update_bookmarks_each g stream (records ++ [last]) st = (Ok tt, st')
            ∧ get_bookmark st' (tap_stream_id stream) "replication_key_value"
              = Some v).
Proof.
  intros Hm Hrk Hok Hall Hv. split.
  - destruct (update_bookmarks_incremental_step g stream rk last v st)
      as (st1 & ? & ? & ?); eauto.
  - revert st Hok. induction Hall as [|r rs [w Hw] _ IH]; intros st Hok.
    + simpl. rewrite update_bookmarks_each_cons.
      destruct (update_bookmarks_incremental_step g stream rk last v st)
        as (st1 & -> & ? & ?); eauto.
    + simpl. rewrite update_bookmarks_each_cons.
      destruct (update_bookmarks_incremental_step g stream rk r w st)
        as (st1 & -> & ? & ?); eauto.
Qed.

Lemma update_bookmarks_replication_key_value_witness :
  ∃ st', update_bookmarks_each no_such_attribute IssuesByUpdate
           ([record_7] ++ [record_3]) state_with_projects = (Ok tt, st')
         ∧ get_bookmark st' "issues" "replication_key_value"
           = Some (VStr "2020-06-30").
Proof.
  apply (update_bookmarks_replication_key_value no_such_attribute
           IssuesByUpdate "updated_at" state_with_projects
           [record_7] record_3 (VStr "2020-06-30")).
  - apply elem_of_cons. left. reflexivity.
  - reflexivity.
  - reflexivity.
  - apply Forall_cons. split; [|apply Forall_nil_2].
    exists (VStr "2021-01-01"). reflexivity.
  - reflexivity.
Defined.

(** ** Full-table bookmarks (C1) *)

Lemma pk_values_lookup stream record k :
  pk_values stream record !! k =
  if bool_decide (k ∈ primary_keys_or_empty stream) then record !! k else None.
Proof.
  unfold pk_values. case_bool_decide as Hk.
  - destruct (record !! k) as [v|] eqn:Hv.
    + by apply map_lookup_filter_Some.
    + apply map_lookup_filter_None. left. done.
  - apply map_lookup_filter_None. right. intros v _. done.
Qed.

(** The write of [last_pk_fetched] sits behind the lookup
    [singer._get_bookmark("max_pk_values")]: where that lookup yields a
    true value the bookmark takes the primary-key values of the record. *)
Lemma update_bookmarks_full_table_found g stream record st m :
  replication_method stream = "FULL_TABLE" →
  g "max_pk_values" = Ok m → truthy m = true →
  record ≠ ∅ →
  bookmark_path_ok st (tap_stream_id stream) = true →
  ∃ st', update_bookmarks g stream (Some record) st = (Ok tt, st')
         ∧ get_bookmark st' (tap_stream_id stream) "last_pk_fetched"
           = Some (VDict (pk_values stream record)).
Proof.
  intros Hm Hg Ht Hr Hok.
  rewrite update_bookmarks_version_phase.
  rewrite update_bookmarks_full_table;
    [|apply with_version_nonempty|done|by apply truthy_nonempty].
  rewrite Hg, Ht.
  destruct (merge_bookmarks_ok stream
              [("last_pk_fetched", VDict (pk_values stream record))]
              (with_version stream st)) as (st' & Hmerge & _).
  { by apply with_version_path_ok. }
  exists st'. split; [done|]. by eapply merge_bookmarks_single.
Qed.

(** Where the lookup raises, or yields a false value, no record ever
    reaches the bookmark: [last_pk_fetched] stays as it was. *)
Lemma update_bookmarks_full_table_not_found g stream record st :
  replication_method stream = "FULL_TABLE" →
  (∀ m, g "max_pk_values" = Ok m → truthy m = false) →
  get_bookmark (update_bookmarks g stream (Some record) st).2
    (tap_stream_id stream) "last_pk_fetched"
  = get_bookmark st (tap_stream_id stream) "last_pk_fetched".
Proof.
  intros Hm Hg.
  assert (Hv : get_bookmark (with_version stream st) (tap_stream_id stream)
                 "last_pk_fetched"
               = get_bookmark st (tap_stream_id stream) "last_pk_fetched").
  { rewrite get_bookmark_with_version.
    case_bool_decide as Hst; [|done]. subst st.
    rewrite get_bookmark_empty. by rewrite bool_decide_eq_false_2 by (by intros [_ ?]). }
  rewrite update_bookmarks_version_phase.
  destruct (decide (record = ∅)) as [->|Hr].
  - rewrite update_bookmarks_falsy;
      [done|apply with_version_nonempty|reflexivity].
  - rewrite update_bookmarks_full_table;
      [|apply with_version_nonempty|done|by apply truthy_nonempty].
    destruct (g "max_pk_values") as [m|e] eqn:Hgm; [|done].
    by rewrite (Hg m eq_refl).
Qed.

(** C1, evaluated.  A FULL_TABLE stream with primary key [id] processes
    the record with [id = 7] on an empty state.  With a [singer] module
    that has no [_get_bookmark] the call raises once the version marker
    is written; with a lookup that finds nothing it returns.  Either way
    no [last_pk_fetched] is stored, where the primary-key values of the
    last record are [{"id": 7}]. *)
Theorem update_bookmarks_full_table_stores_nothing :
  pk_values ProjectsStream record_7 = {["id" := VInt 7]}
  ∧ update_bookmarks_each no_such_attribute ProjectsStream [record_7] ∅
    = (Raise AttributeError, with_version ProjectsStream ∅)
  ∧ update_bookmarks_each finds_nothing ProjectsStream [record_7] ∅
    = (Ok tt, with_version ProjectsStream ∅)
  ∧ get_bookmark (with_version ProjectsStream ∅) "projects" "last_pk_fetched"
    = None.
Proof. split_and!; vm_compute; reflexivity. Qed.

(** * Properties of the tap *)

Arguments truthy : simpl never.

Lemma same_run_data_refl self : same_run_data self self.
Proof. by unfold same_run_data. Qed.

Lemma same_run_data_trans s1 s2 s3 :
  same_run_data s1 s2 → same_run_data s2 s3 → same_run_data s1 s3.
Proof. unfold same_run_data. intros (?&?&?&?) (?&?&?&?). split_and!; congruence. Qed.

Section TapProofs.

Variable load_streams : Tap → result (list Stream).
Variable apply_catalog : Stream → pydict → result Stream.
Variable sync : Stream → M pydict unit.
Variable repr : value → string.

Abbreviation Streams := (streams load_streams apply_catalog).
Abbreviation RunSync := (run_sync sync).
Abbreviation SyncOne := (sync_one load_streams apply_catalog sync repr).
Abbreviation SyncAll := (sync_all load_streams apply_catalog sync).

Lemma streams_cached self d :
  _streams self = Some d → Streams self = (Ok d, self).
Proof. intros H. unfold streams. unfold_monad. by rewrite H. Qed.

(** The loop that fills the mapping keeps a mapping in place and logs
    catalog applications only. *)
Lemma streams_loop loaded : ∀ self d,
  _streams self = Some d →
  ∃ r self' d' names,
    for_each loaded (λ stream,
      do self <- get;
      do stream <-
        match _input_catalog self with
        | Some catalog =>
            if truthy (VDict catalog)
            then log (ApplyCatalog (name stream)) >>
                 lift (apply_catalog stream catalog)
            else ret stream
        | None => ret stream
        end;
      do self <- get;
      set_streams (setitem (default [] (_streams self)) (name stream) stream))
      self = (r, self')
    ∧ _streams self' = Some d'
    ∧ trace self' = trace self ++ (ApplyCatalog <$> names)
    ∧ same_run_data self self'.
Proof.
  unfold bind, get, log, lift, ret, set_streams.
  induction loaded as [|stream loaded IH]; intros self d Hd.
  - exists (Ok tt), self, d, []. simpl. rewrite app_nil_r.
    split_and!; done.
  - simpl. unfold bind, ret.
    destruct (_input_catalog self) as [catalog|] eqn:Hcat;
      [destruct (truthy (VDict catalog)) eqn:Ht|].
    + destruct (apply_catalog stream catalog) as [stream'|e].
      * simpl. rewrite ?Hd. simpl.
        edestruct IH as (r & self' & d' & names & -> & Hd' & Htr & Hsame);
          [reflexivity|].
        exists r, self', d', (name stream :: names).
        split_and!; try done.
        all: try (rewrite Htr; simpl; by rewrite <-app_assoc).
        all: eapply same_run_data_trans; [|exact Hsame]; by unfold same_run_data.
      * eexists (Raise e), _, d, [name stream]. split_and!; try done.
    + simpl. rewrite ?Hd. simpl.
      edestruct IH as (r & self' & d' & names & -> & Hd' & Htr & Hsame);
        [reflexivity|].
      exists r, self', d', names. split_and!; try done.
      all: eapply same_run_data_trans; [|exact Hsame]; by unfold same_run_data.
    + simpl. rewrite ?Hd. simpl.
      edestruct IH as (r & self' & d' & names & -> & Hd' & Htr & Hsame);
        [reflexivity|].
      exists r, self', d', names. split_and!; try done.
      all: eapply same_run_data_trans; [|exact Hsame]; by unfold same_run_data.
Qed.

(** The first access builds the mapping: it loads the streams once,
    applies the catalog, and leaves a mapping in place whatever the
    outcome. *)
Lemma streams_build self :
  _streams self = None →
  ∃ r self1 d1 names,
    Streams self = (r, self1)
    ∧ _streams self1 = Some d1
    ∧ (∀ d, r = Ok d → d = d1)
    ∧ trace self1 = trace self ++ LoadStreams :: (ApplyCatalog <$> names)
    ∧ same_run_data self self1.
Proof.
  intros Hnone. unfold streams.
  unfold bind at 1. unfold get at 1. rewrite Hnone.
  unfold bind at 1. unfold set_streams at 1.
  unfold bind at 1. unfold log at 1. simpl.
  unfold bind at 1. unfold get at 1.
  unfold bind at 1. unfold lift at 1.
  match goal with
  | |- context [load_streams ?s] => set (self0 := s)
  end.
  destruct (load_streams self0) as [loaded|e].
  - unfold bind at 1.
    edestruct (streams_loop loaded self0 [])
      as (r & self' & d' & names & Hloop & Hd' & Htr & Hsame); [reflexivity|].
    rewrite Hloop. destruct r as [[]|e].
    + unfold bind at 1. unfold get at 1. unfold ret. rewrite Hd'. simpl.
      exists (Ok d'), self', d', names. split_and!; try done.
      all: try (by intros d [= ->]).
      all: try (rewrite Htr; simpl; by rewrite <-app_assoc).
      all: eapply same_run_data_trans; [|exact Hsame]; by unfold same_run_data.
    + exists (Raise e), self', d', names. split_and!; try done.
      all: try (rewrite Htr; simpl; by rewrite <-app_assoc).
      all: eapply same_run_data_trans; [|exact Hsame]; by unfold same_run_data.
  - eexists (Raise e), self0, [], []. split_and!; done.
Qed.

(** Every access leaves a mapping in place, returns that mapping if it
    returns, loads at most once, and starts no sync. *)
Lemma streams_access self :
  ∃ r self1 d1,
    Streams self = (r, self1)
    ∧ _streams self1 = Some d1
    ∧ (∀ d, r = Ok d → d = d1)
    ∧ loads (trace self1) ≤ loads (trace self) + 1
    ∧ sync_events (trace self1) = sync_events (trace self)
    ∧ same_run_data self self1.
Proof.
  destruct (_streams self) as [d|] eqn:Hd.
  - exists (Ok d), self, d. rewrite (streams_cached _ _ Hd).
    split_and!; try done; try lia; try (by intros ? [= ->]).
  - destruct (streams_build self Hd)
      as (r & self1 & d1 & names & Hs & Hd1 & Hr & Htr & Hsame).
    exists r, self1, d1. split_and!; try done.
    + rewrite Htr. unfold loads. rewrite List.filter_app, length_app. simpl.
      assert (List.filter is_load_event (ApplyCatalog <$> names) = []) as ->.
      { clear. induction names; simpl; done. }
      simpl. lia.
    + rewrite Htr. unfold sync_events. rewrite List.filter_app. simpl.
      assert (List.filter is_sync_event (ApplyCatalog <$> names) = []) as ->.
      { clear. induction names; simpl; done. }
      by rewrite app_nil_r.
Qed.

End TapProofs.

(** ** The cached stream mapping (C9) *)

Lemma access_streams_fixed (streams : M Tap stream_dict) self r n :
  streams self = (r, self) → access_streams streams n self = self.
Proof. intros H. induction n as [|n IH]; simpl; [done|]. by rewrite H. Qed.

(** ** Discovery (C8) *)

Lemma string_app_assoc (s1 s2 s3 : string) :
  ((s1 ++ s2) ++ s3 = s1 ++ (s2 ++ s3))%string.
Proof.
  induction s1 as [|c s1 IH]; [done|].
  change (String c ((s1 ++ s2) ++ s3) = String c (s1 ++ (s2 ++ s3)))%string.
  by rewrite IH.
Qed.

(** C8. [discover_streams] of a tap that defines no discovery never
    returns a list of streams: it raises [NotImplementedError], and the
    message ends by telling the operator to set the [--catalog] command
    line argument.  A tap that loads its streams by discovery fails in
    the same way on the first access to its streams. *)
Theorem discover_streams_not_supported
    (apply_catalog : Stream → pydict → result Stream) (self : Tap) :
  (∃ msg, discover_streams self
          = Raise (NotImplementedError
              (msg ++ "Please set the '--catalog' command line argument and try again.")%string))
  ∧ (∀ l, discover_streams self ≠ Ok l)
  ∧ (_streams self = None →
     (streams Tap_load_streams apply_catalog self).1
     = Raise (NotImplementedError
         ("Tap '" ++ tap_name self ++ "' does not support discovery. "
          ++ "Please set the '--catalog' command line argument and try again.")%string)).
Proof.
  split_and!.
  - exists ("Tap '" ++ tap_name self ++ "' does not support discovery. ")%string.
    unfold discover_streams. do 2 f_equal.
    rewrite !string_app_assoc. reflexivity.
  - intros l. unfold discover_streams. discriminate.
  - intros Hnone. unfold streams. unfold_monad. by rewrite Hnone.
Qed.

(** ** Syncing one stream (C6) *)

Lemma lookup_stream_is_Some (d : stream_dict) k :
  k ∈ keys d → is_Some (lookup_stream d k).
Proof.
  unfold keys. induction d as [|[k' v] d IH]; simpl; intros Hk.
  - by apply elem_of_nil in Hk.
  - case_bool_decide; [by eexists|].
    apply IH. apply elem_of_cons in Hk as [->|Hk]; done.
Qed.

Lemma lookup_stream_values (d : stream_dict) k s :
  lookup_stream d k = Some s → s ∈ values d.
Proof.
  unfold values. induction d as [|[k' v] d IH]; simpl; [done|].
  case_bool_decide.
  - intros [= ->]. apply elem_of_cons. by left.
  - intros H'. apply elem_of_cons. right. by apply IH.
Qed.

(** One [stream.sync()]: its start is logged, it acts on the state, and
    its end is logged if it returns. *)
Lemma run_sync_eq sync stream self :
  run_sync sync stream self =
  ((sync stream (_state self)).1,
   {| tap_name := tap_name self; config := config self;
      _input_catalog := _input_catalog self;
      _state := (sync stream (_state self)).2;
      _streams := _streams self;
      trace := trace self ++ SyncBegin (name stream) ::
                 match (sync stream (_state self)).1 with
                 | Ok _ => [SyncEnd (name stream)]
                 | Raise _ => []
                 end |}).
Proof.
  unfold run_sync, on_state, log. unfold_monad.
  destruct (sync stream (_state self)) as [[[]|e] st']; simpl.
  - by rewrite <-app_assoc.
  - done.
Qed.

(** C6. Once the stream mapping is resolved, [sync_one] of a name that
    is not a key of the mapping raises [ValueError] (the spec's
    StreamNotFoundError) and leaves the tap as the resolution left it: no
    sync has begun and the state is untouched.  For a name that is a key
    it makes one call, [stream.sync()] of the stream stored under that
    name: what that call returns or raises is the outcome of [sync_one],
    the state it leaves is the state of the tap, and it is the only sync
    of the run. *)
Theorem sync_one_runs_exactly_that_stream
    (load_streams : Tap → result (list Stream))
    (apply_catalog : Stream → pydict → result Stream)
    (sync : Stream → M pydict unit) (repr : value → string)
    (stream_name : string) (self self1 : Tap) (d : stream_dict) :
  streams load_streams apply_catalog self = (Ok d, self1) →
  (stream_name ∉ keys d →
     sync_one load_streams apply_catalog sync repr stream_name self
     = (Raise (ValueError
          ("Could not find stream '" ++ stream_name ++ "' in streams list: "
           ++ repr (VList (VStr <$> sorted (keys d))))%string), self1)
     ∧ sync_events (trace self1) = sync_events (trace self)
     ∧ _state self1 = _state self)
  ∧ (stream_name ∈ keys d →
     ∃ stream,
       lookup_stream d stream_name = Some stream
       ∧ sync_one load_streams apply_catalog sync repr stream_name self
         = run_sync sync stream self1
       ∧ (sync_one load_streams apply_catalog sync repr stream_name self).1
         = (sync stream (_state self)).1
       ∧ _state (sync_one load_streams apply_catalog sync repr
                   stream_name self).2
         = (sync stream (_state self)).2
       ∧ trace (sync_one load_streams apply_catalog sync repr
                  stream_name self).2
         = trace self1 ++
             SyncBegin (name stream) ::
               match (sync stream (_state self)).1 with
               | Ok _ => [SyncEnd (name stream)]
               | Raise _ => []
               end
       ∧ sync_events
           (trace (sync_one load_streams apply_catalog sync repr
                     stream_name self).2)
         = sync_events (trace self) ++
             SyncBegin (name stream) ::
               match (sync stream (_state self)).1 with
               | Ok _ => [SyncEnd (name stream)]
               | Raise _ => []
               end).
Proof.
  intros Hs.
  destruct (streams_access load_streams apply_catalog self)
    as (r & self1' & d1 & Hs' & Hd1 & Hr & _ & Hsync & Hsame).
  rewrite Hs in Hs'. injection Hs' as <- <-.
  rewrite <-(Hr d eq_refl) in Hd1.
  pose proof (streams_cached load_streams apply_catalog self1 d Hd1) as Hc.
  destruct Hsame as (_ & _ & _ & Hstate).
  split.
  - intros Hnot. split_and!; try done.
    unfold sync_one. unfold bind at 1. rewrite Hs.
    unfold contains. rewrite bool_decide_eq_false_2 by done. simpl.
    unfold bind at 1. by rewrite Hc.
  - intros Hin. destruct (lookup_stream_is_Some d stream_name Hin) as [stream Hl].
    exists stream. split; [done|].
    assert (Heq : sync_one load_streams apply_catalog sync repr stream_name self
                  = run_sync sync stream self1).
    { unfold sync_one. unfold bind at 1. rewrite Hs.
      unfold contains. rewrite bool_decide_eq_true_2 by done. simpl.
      unfold bind at 1. by rewrite Hc, Hl. }
    split; [done|]. rewrite Heq, run_sync_eq. simpl. rewrite Hstate.
    split_and!; try done.
    unfold sync_events in *. rewrite List.filter_app, Hsync. f_equal.
    simpl. by destruct (sync stream (_state self)).1.
Qed.

Lemma sync_one_runs_exactly_that_stream_witness :
  streams loads_epics_first catalog_changes_nothing (new_tap "tap-gitlab" ∅)
  = (Ok epics_first,
     (streams loads_epics_first catalog_changes_nothing
        (new_tap "tap-gitlab" ∅)).2)
  ∧ ∃ stream,
      lookup_stream epics_first "epics" = Some stream
      ∧ (sync_one loads_epics_first catalog_changes_nothing
           sync_fails_for_epics repr_elided "epics" (new_tap "tap-gitlab" ∅)).1
        = (sync_fails_for_epics stream ∅).1.
Proof.
  split; [reflexivity|].
  destruct (sync_one_runs_exactly_that_stream loads_epics_first
              catalog_changes_nothing sync_fails_for_epics repr_elided "epics"
              (new_tap "tap-gitlab" ∅) _ epics_first eq_refl) as [_ H].
  destruct H as (stream & Hl & _ & Hres & _).
  - apply elem_of_cons. by left.
  - exists stream. by split.
Defined.

(** ** The order of [sync_all] (C2) *)

Lemma sync_schedule_lookup_begin ss : ∀ k,
  sync_schedule ss !! (2 * k) = (λ s, SyncBegin (name s)) <$> ss !! k.
Proof.
  induction ss as [|s ss IH]; intros k; [done|].
  destruct k as [|k]; [done|].
  replace (2 * S k) with (S (S (2 * k))) by lia. simpl. apply IH.
Qed.

Lemma sync_schedule_lookup_end ss : ∀ k,
  sync_schedule ss !! (2 * k + 1) = (λ s, SyncEnd (name s)) <$> ss !! k.
Proof.
  induction ss as [|s ss IH]; intros k; [done|].
  destruct k as [|k]; [done|].
  replace (2 * S k + 1) with (S (S (2 * k + 1))) by lia. simpl. apply IH.
Qed.

Lemma sync_schedule_begin_inv ss i nm :
  sync_schedule ss !! i = Some (SyncBegin nm) →
  ∃ k s, i = 2 * k ∧ ss !! k = Some s ∧ name s = nm.
Proof.
  intros Hi. destruct (Nat.Even_or_Odd i) as [[k ->]|[k ->]].
  - rewrite sync_schedule_lookup_begin in Hi.
    destruct (ss !! k) as [s|] eqn:Hk; simplify_eq/=. by exists k, s.
  - rewrite sync_schedule_lookup_end in Hi.
    destruct (ss !! k); simplify_eq/=.
Qed.

(** The loop of [sync_all]: the streams are synced in the order of the
    list, each to its end before the next begins; a sync that raises
    ends the loop. *)
Lemma sync_loop sync ss : ∀ self,
  ∃ n, trace (for_each ss (run_sync sync) self).2
       = trace self ++ take n (sync_schedule ss)
       ∧ ((for_each ss (run_sync sync) self).1 = Ok tt →
          trace (for_each ss (run_sync sync) self).2
          = trace self ++ sync_schedule ss).
Proof.
  induction ss as [|s ss IH]; intros self.
  - exists 0. simpl. by rewrite app_nil_r.
  - simpl. unfold bind. rewrite run_sync_eq.
    destruct (sync s (_state self)) as [[[]|e] st']; simpl.
    + match goal with
      | |- context [for_each ss _ ?s0] => destruct (IH s0) as (n & Hn & Hok)
      end.
      exists (S (S n)). simpl in *. split.
      * rewrite Hn. by rewrite <-app_assoc.
      * intros Hr. rewrite (Hok Hr). by rewrite <-app_assoc.
    + exists 1. simpl. split; [done|]. discriminate.
Qed.

Lemma sync_events_nil_lookup tr i e :
  sync_events tr = [] → tr !! i = Some e → is_sync_event e = false.
Proof.
  intros Hnil Hi. destruct (is_sync_event e) eqn:He; [|done].
  assert (Hin : In e (sync_events tr)).
  { apply List.filter_In. split; [|done].
    apply list_elem_of_In. by eapply list_elem_of_lookup_2. }
  rewrite Hnil in Hin. destruct Hin.
Qed.

(** A schedule that follows a list in which parents come first has every
    parent's end before the child's start, also when it is cut short. *)
Lemma schedule_parents_complete_first (d : stream_dict) pre n :
  sync_events pre = [] →
  NoDup (name <$> values d) →
  parents_registered_first d →
  parents_complete_first d (pre ++ take n (sync_schedule (values d))).
Proof.
  intros Hpre Hnodup Hreg i child p Hchild Hi Hp.
  destruct (decide (i < length pre)) as [Hlt|Hge].
  { rewrite lookup_app_l in Hi by done.
    by apply (sync_events_nil_lookup _ _ _ Hpre) in Hi. }
  rewrite lookup_app_r in Hi by lia.
  apply lookup_take_Some in Hi as [Hi Hin].
  apply sync_schedule_begin_inv in Hi as (k & s & Hik & Hk & Hname).
  apply list_elem_of_lookup in Hchild as [k' Hk'].
  assert (k' = k) as ->.
  { eapply NoDup_lookup; [exact Hnodup| |].
    - by rewrite list_lookup_fmap, Hk'.
    - by rewrite list_lookup_fmap, Hk; simpl; rewrite Hname. }
  destruct (Hreg k child p Hk' Hp) as (j & s' & Hj & Hs' & Hn').
  exists (length pre + (2 * j + 1)). split; [lia|].
  rewrite lookup_app_r by lia.
  replace (length pre + (2 * j + 1) - length pre) with (2 * j + 1) by lia.
  apply lookup_take_Some. split; [|lia].
  rewrite sync_schedule_lookup_end, Hs'. simpl. by rewrite Hn'.
Qed.

(** [sync_all] does not sort: no order of syncs that has every parent
    completed before its child holds for all taps. *)
Lemma sync_all_order_counterexample :
  ¬ (∀ (load_streams : Tap → result (list Stream))
       (apply_catalog : Stream → pydict → result Stream)
       (sync : Stream → M pydict unit) (self : Tap) (d : stream_dict),
       (streams load_streams apply_catalog self).1 = Ok d →
       parents_complete_first d
         (trace (sync_all load_streams apply_catalog sync self).2)).
Proof.
  intros H.
  specialize (H loads_epic_issues_first catalog_changes_nothing
                sync_finds_nothing (new_tap "tap-gitlab" ∅)
                epic_issues_first eq_refl).
  destruct (H 1 EpicIssuesStream "epics") as (j & Hj & Hev).
  - apply elem_of_cons. by left.
  - reflexivity.
  - apply elem_of_cons. by left.
  - assert (j = 0) as -> by lia. vm_compute in Hev. discriminate Hev.
Qed.

(** What [sync_all] does instead: it syncs the streams of the resolved
    mapping in the order of the mapping, each to its end before the next
    begins, and stops at the first sync that raises.  Only where every
    stream happens to be registered after its parents does no stream
    begin before its parents have completed. *)
Theorem sync_all_registration_order
    (load_streams : Tap → result (list Stream))
    (apply_catalog : Stream → pydict → result Stream)
    (sync : Stream → M pydict unit)
    (self self1 : Tap) (d : stream_dict) :
  streams load_streams apply_catalog self = (Ok d, self1) →
  (∃ n, trace (sync_all load_streams apply_catalog sync self).2
        = trace self1 ++ take n (sync_schedule (values d)))
  ∧ ((sync_all load_streams apply_catalog sync self).1 = Ok tt →
     trace (sync_all load_streams apply_catalog sync self).2
     = trace self1 ++ sync_schedule (values d))
  ∧ (sync_events (trace self) = [] →
     NoDup (name <$> values d) →
     parents_registered_first d →
     parents_complete_first d
       (trace (sync_all load_streams apply_catalog sync self).2)).
Proof.
  intros Hs.
  assert (Heq : sync_all load_streams apply_catalog sync self
                = for_each (values d) (run_sync sync) self1).
  { unfold sync_all. unfold bind at 1. by rewrite Hs. }
  rewrite Heq.
  destruct (sync_loop sync (values d) self1) as (n & Hn & Hok).
  split_and!; [by exists n|done|].
  intros Hnone Hnodup Hreg. rewrite Hn.
  apply schedule_parents_complete_first; try done.
  destruct (streams_access load_streams apply_catalog self)
    as (r & self1' & d1 & Hs' & _ & _ & _ & Hsync & _).
  rewrite Hs in Hs'. injection Hs' as <- <-. by rewrite Hsync.
Qed.

Lemma sync_all_registration_order_witness :
  streams loads_epics_first catalog_changes_nothing (new_tap "tap-gitlab" ∅)
  = (Ok epics_first,
     (streams loads_epics_first catalog_changes_nothing
        (new_tap "tap-gitlab" ∅)).2)
  ∧ trace (sync_all loads_epics_first catalog_changes_nothing
             sync_finds_nothing (new_tap "tap-gitlab" ∅)).2
    = [LoadStreams] ++ sync_schedule [EpicsStream; EpicIssuesStream].
Proof.
  split; [reflexivity|].
  apply (sync_all_registration_order loads_epics_first catalog_changes_nothing
           sync_finds_nothing (new_tap "tap-gitlab" ∅) _ epics_first eq_refl).
  reflexivity.
Defined.

(** ** Request parameters of the sample streams (C7, C5) *)

(** C7, as stated, fails on the [start_date] entry: where no start
    date is configured the entry is not absent, [get_params] stores
    [None] under the key. *)
Lemma get_params_start_date_counterexample :
  ¬ (∀ config : pydict,
       config !! "project_ids" = Some (VList [VStr "ns/proj"]) →
       ∃ params,
         GitlabStream_get_params config "project_id=ns/proj" = Ok params
         ∧ params !! "project_id" = Some (VStr "ns/proj")
         ∧ params !! "start_date" = config !! "start_date").
Proof.
  intros H. destruct (H gitlab_config eq_refl) as (params & Hp & _ & Hsd).
  injection Hp as <-. vm_compute in Hsd. discriminate Hsd.
Qed.

(** C7, amended. With [project_ids] configured as [["ns/proj"]], the
    substream ids of a project-based stream are exactly
    [["project_id=ns/proj"]], and [get_params] of that id returns a
    mapping with exactly the keys [project_id] and [start_date]:
    [project_id] is ["ns/proj"], and [start_date] is the configured
    start date, or [None] where none is configured (the key is always
    there). *)
Theorem project_substream_ids_and_params
    (repr : value → string) (iter_str_or_dict : value → list value)
    (config : pydict) :
  config !! "project_ids" = Some (VList [VStr "ns/proj"]) →
  get_substream_ids repr iter_str_or_dict config = Ok ["project_id=ns/proj"]
  ∧ ∃ params,
      GitlabStream_get_params config "project_id=ns/proj" = Ok params
      ∧ params !! "project_id" = Some (VStr "ns/proj")
      ∧ params !! "start_date"
        = Some (match config !! "start_date" with
                | Some start_date => start_date
                | None => VNone
                end)
      ∧ dom params = {["project_id"; "start_date"]}.
Proof.
  intros Hids. split.
  - unfold get_substream_ids, dict_get. by rewrite Hids.
  - eexists. split; [reflexivity|]. split_and!.
    + by rewrite lookup_insert_ne, lookup_singleton_eq.
    + rewrite lookup_insert_eq. unfold dict_get.
      by destruct (config !! "start_date").
    + rewrite dom_insert_L, dom_singleton_L. set_solver.
Qed.

Lemma project_substream_ids_and_params_witness :
  gitlab_config !! "project_ids" = Some (VList [VStr "ns/proj"])
  ∧ get_substream_ids repr_elided iter_elided gitlab_config
    = Ok ["project_id=ns/proj"].
Proof.
  split; [reflexivity|].
  apply (project_substream_ids_and_params repr_elided iter_elided gitlab_config).
  reflexivity.
Defined.

(** C5. [EpicIssuesStream.get_params] reads the substream state of the
    stream and looks for [epic_id] in it.  Where it is absent the call
    raises [ValueError] (the spec's DependencyStateError) and builds no
    parameters.  Where it is present and the base parameters can be
    built, the result is the base parameters updated with the substream
    state: every entry of that state, [epic_id] among them, is in the
    result as the state holds it. *)
Theorem epic_issues_get_params_needs_epic_id
    (read_stream_state : pydict → string * string → pydict)
    (state config : pydict) (substream_id : string) :
  (read_stream_state state ("epic_issues", substream_id) !! "epic_id" = None →
   EpicIssuesStream_get_params read_stream_state state config substream_id
   = Raise (ValueError "Cannot sync epic issues without already known epic IDs."))
  ∧ (∀ base,
       is_Some (read_stream_state state ("epic_issues", substream_id)
                  !! "epic_id") →
       GitlabStream_get_params config substream_id = Ok base →
       EpicIssuesStream_get_params read_stream_state state config substream_id
       = Ok (read_stream_state state ("epic_issues", substream_id) ∪ base)
       ∧ (∀ k v,
            read_stream_state state ("epic_issues", substream_id) !! k = Some v →
            (read_stream_state state ("epic_issues", substream_id) ∪ base) !! k
            = Some v)
       ∧ (∀ k,
            read_stream_state state ("epic_issues", substream_id) !! k = None →
            (read_stream_state state ("epic_issues", substream_id) ∪ base) !! k
            = base !! k)).
Proof.
  unfold EpicIssuesStream_get_params. split.
  - intros Hnone. rewrite bool_decide_eq_false_2; [done|].
    rewrite Hnone. by intros [? ?].
  - intros base Hsome Hbase. rewrite bool_decide_eq_true_2 by done. simpl.
    rewrite Hbase. simpl. split_and!; [done| |].
    + intros k v Hk. by apply lookup_union_Some_l.
    + intros k Hk. by apply lookup_union_r.
Qed.

Lemma epic_issues_get_params_needs_epic_id_witness :
  EpicIssuesStream_get_params nothing_known ∅ gitlab_config "epic=7"
  = Raise (ValueError "Cannot sync epic issues without already known epic IDs.")
  ∧ EpicIssuesStream_get_params epic_7_known ∅ gitlab_config "epic=7"
    = Ok (epic_7_known ∅ ("epic_issues", "epic=7")
          ∪ <["start_date" := VNone]> {["project_id" := VStr "7"]}).
Proof.
  split.
  - apply (epic_issues_get_params_needs_epic_id nothing_known ∅ gitlab_config
             "epic=7"). reflexivity.
  - apply (epic_issues_get_params_needs_epic_id epic_7_known ∅ gitlab_config
             "epic=7").
    + by eexists.
    + reflexivity.
Defined.

Lemma discover_streams_not_supported_witness :
  (streams Tap_load_streams catalog_changes_nothing
     (new_tap "tap-gitlab" ∅)).1
  = Raise (NotImplementedError
      "Tap 'tap-gitlab' does not support discovery. Please set the '--catalog' command line argument and try again.").
Proof.
  apply (discover_streams_not_supported catalog_changes_nothing
           (new_tap "tap-gitlab" ∅)).
  reflexivity.
Defined.

(** * Further properties of the bookmark engine *)

Lemma write_bookmark_Ok_path st id k v st' :
  write_bookmark st id k v = Ok st' → bookmark_path_ok st id = true.
Proof.
  unfold bookmark_path_ok, write_bookmark. intros H.
  repeat case_match; simplify_eq; reflexivity.
Qed.

Lemma write_bookmark_toplevel st id k v st' key :
  write_bookmark st id k v = Ok st' → key ≠ "bookmarks" →
  st' !! key = st !! key.
Proof.
  unfold write_bookmark. intros H Hne.
  repeat case_match; simplify_eq; by rewrite lookup_insert_ne.
Qed.

Lemma write_bookmark_same st id k v :
  get_bookmark st id k = Some v → write_bookmark st id k v = Ok st.
Proof.
  unfold get_bookmark, write_bookmark. intros H.
  repeat case_match; simplify_eq.
  f_equal. rewrite (insert_id d0 k v) by done.
  rewrite (insert_id d id (VDict d0)) by done.
  by rewrite insert_id.
Qed.

Lemma merge_bookmarks_path_ok stream nb : ∀ st r st',
  merge_bookmarks stream nb st = (r, st') →
  bookmark_path_ok st (tap_stream_id stream) = true →
  bookmark_path_ok st' (tap_stream_id stream) = true.
Proof.
  induction nb as [|[k v] nb IH]; intros st r st' Hm Hok.
  - rewrite merge_bookmarks_nil in Hm. by simplify_eq.
  - rewrite merge_bookmarks_cons in Hm.
    destruct (write_bookmark st (tap_stream_id stream) k v) as [st1|e] eqn:Hw;
      [|by simplify_eq].
    eapply IH; [exact Hm|]. by eapply write_bookmark_path_ok.
Qed.

Lemma merge_bookmarks_toplevel stream nb : ∀ st r st' key,
  merge_bookmarks stream nb st = (r, st') → key ≠ "bookmarks" →
  st' !! key = st !! key.
Proof.
  induction nb as [|[k v] nb IH]; intros st r st' key Hm Hne.
  - rewrite merge_bookmarks_nil in Hm. by simplify_eq.
  - rewrite merge_bookmarks_cons in Hm.
    destruct (write_bookmark st (tap_stream_id stream) k v) as [st1|e] eqn:Hw;
      [|by simplify_eq].
    rewrite (IH _ _ _ key Hm Hne). by eapply write_bookmark_toplevel.
Qed.

Lemma merge_bookmarks_nonempty stream nb : ∀ st r st',
  merge_bookmarks stream nb st = (r, st') → st ≠ ∅ → st' ≠ ∅.
Proof.
  induction nb as [|[k v] nb IH]; intros st r st' Hm Hne.
  - rewrite merge_bookmarks_nil in Hm. by simplify_eq.
  - rewrite merge_bookmarks_cons in Hm.
    destruct (write_bookmark st (tap_stream_id stream) k v) as [st1|e] eqn:Hw;
      [|by simplify_eq].
    eapply IH; [exact Hm|]. by eapply write_bookmark_nonempty.
Qed.

Lemma merge_bookmarks_all_present stream nb : ∀ st st' k,
  merge_bookmarks stream nb st = (Ok tt, st') →
  k ∈ nb.*1 →
  is_Some (get_bookmark st' (tap_stream_id stream) k).
Proof.
  induction nb as [|[k0 v0] nb IH]; intros st st' k Hm Hk.
  - by apply elem_of_nil in Hk.
  - rewrite merge_bookmarks_cons in Hm.
    destruct (write_bookmark st (tap_stream_id stream) k0 v0) as [st1|e] eqn:Hw;
      [|done].
    destruct (decide (k ∈ nb.*1)) as [Hin|Hnin]; [by eapply IH|].
    simpl in Hk. apply elem_of_cons in Hk as [->|Hk]; [|done].
    exists v0.
    rewrite (merge_bookmarks_frame stream nb st1 (Ok tt) st'
               (tap_stream_id stream) k0 Hm) by (by right).
    by eapply write_bookmark_lookup.
Qed.

(** X1. [merge_bookmarks] of at least one entry writes all of them or
    none: on a state whose bookmark path is writable it returns, the path
    stays writable and every key given has an entry; on any other state
    it raises at the first entry and the state is as it was. *)
Theorem merge_bookmarks_all_or_nothing
    (stream : Stream) (k : string) (v : value)
    (new_bookmarks : list (string * value)) (st : pydict) :
  (bookmark_path_ok st (tap_stream_id stream) = true
   ∧ ∃ st', merge_bookmarks stream ((k, v) :: new_bookmarks) st = (Ok tt, st')
            ∧ bookmark_path_ok st' (tap_stream_id stream) = true
            ∧ ∀ k', k' ∈ ((k, v) :: new_bookmarks).*1 →
                    is_Some (get_bookmark st' (tap_stream_id stream) k'))
  ∨ (bookmark_path_ok st (tap_stream_id stream) = false
     ∧ ∃ e, merge_bookmarks stream ((k, v) :: new_bookmarks) st = (Raise e, st)).
Proof.
  destruct (bookmark_path_ok st (tap_stream_id stream)) eqn:Hok.
  - left. split; [done|].
    destruct (merge_bookmarks_ok stream ((k, v) :: new_bookmarks) st Hok)
      as (st' & Hm & Hok').
    exists st'. split_and!; try done.
    intros k' Hk'. by eapply merge_bookmarks_all_present.
  - right. split; [done|]. rewrite merge_bookmarks_cons.
    destruct (write_bookmark st (tap_stream_id stream) k v) as [st1|e] eqn:Hw.
    + apply write_bookmark_Ok_path in Hw. congruence.
    + by exists e.
Qed.

(** X2. After a [merge_bookmarks] that returns, the stream's bookmark
    holds under each key the value of the last entry given for that key,
    and what it held before under a key not given; the bookmarks of the
    other streams and the other entries of the state are unchanged. *)
Theorem merge_bookmarks_last_entry_wins
    (stream : Stream) (new_bookmarks : list (string * value))
    (st st' : pydict) :
  merge_bookmarks stream new_bookmarks st = (Ok tt, st') →
  (∀ k, get_bookmark st' (tap_stream_id stream) k
        = foldl (λ held kv, if bool_decide (kv.1 = k) then Some kv.2 else held)
            (get_bookmark st (tap_stream_id stream) k) new_bookmarks)
  ∧ (∀ id k, id ≠ tap_stream_id stream →
             get_bookmark st' id k = get_bookmark st id k)
  ∧ (∀ key, key ≠ "bookmarks" → st' !! key = st !! key).
Proof.
  intros Hm. split_and!.
  - intros k. revert st Hm.
    induction new_bookmarks as [|[k0 v0] nb IH]; intros st Hm.
    + rewrite merge_bookmarks_nil in Hm. by simplify_eq.
    + rewrite merge_bookmarks_cons in Hm.
      destruct (write_bookmark st (tap_stream_id stream) k0 v0) as [st1|e] eqn:Hw;
        [|done].
      rewrite (IH st1 Hm). simpl. f_equal.
      case_bool_decide as Hk.
      * subst k0. by eapply write_bookmark_lookup.
      * eapply write_bookmark_frame; [exact Hw|]. right. congruence.
  - intros id k Hid. eapply merge_bookmarks_frame; [exact Hm|]. by left.
  - intros key Hkey. by eapply merge_bookmarks_toplevel.
Qed.

Lemma merge_bookmarks_last_entry_wins_witness :
  merge_bookmarks IssuesByUpdate
    [("replication_key_value", VInt 1); ("replication_key_value", VInt 2)]
    state_with_projects
  = (Ok tt,
     (merge_bookmarks IssuesByUpdate
        [("replication_key_value", VInt 1); ("replication_key_value", VInt 2)]
        state_with_projects).2)
  ∧ get_bookmark
      (merge_bookmarks IssuesByUpdate
         [("replication_key_value", VInt 1); ("replication_key_value", VInt 2)]
         state_with_projects).2
      (tap_stream_id IssuesByUpdate) "replication_key_value"
    = Some (VInt 2).
Proof.
  split; [reflexivity|].
  destruct (merge_bookmarks_last_entry_wins IssuesByUpdate
              [("replication_key_value", VInt 1); ("replication_key_value", VInt 2)]
              state_with_projects
              (merge_bookmarks IssuesByUpdate
                 [("replication_key_value", VInt 1);
                  ("replication_key_value", VInt 2)]
                 state_with_projects).2 eq_refl) as (H & _ & _).
  exact (eq_trans (H "replication_key_value") eq_refl).
Defined.

Section MoreBookmarkProofs.

Variable g : string → result value.

Lemma update_bookmarks_toplevel stream latest_record st r st' key :
  update_bookmarks g stream latest_record st = (r, st') →
  key ≠ "bookmarks" →
  st' !! key = st !! key.
Proof.
  intros Hu Hne.
  assert (Hv : with_version stream st !! key = st !! key).
  { unfold with_version. case_bool_decide as Hst; [|done]. subst st.
    rewrite lookup_singleton_ne by done. by rewrite lookup_empty. }
  rewrite update_bookmarks_version_phase in Hu. rewrite <-Hv.
  pose proof (with_version_nonempty stream st) as Hnon.
  revert Hu Hnon. generalize (with_version stream st). clear Hv.
  intros st0 Hu Hst. unfold update_bookmarks in Hu. unfold_monad.
  rewrite truthy_nonempty in Hu by done. simpl in Hu.
  repeat case_match; simplify_eq; try done;
    by eapply merge_bookmarks_toplevel.
Qed.

Lemma update_bookmarks_keeps_nonempty stream latest_record st r st' :
  update_bookmarks g stream latest_record st = (r, st') → st' ≠ ∅.
Proof.
  intros Hu. rewrite update_bookmarks_version_phase in Hu.
  pose proof (with_version_nonempty stream st) as Hnon.
  revert Hu Hnon. generalize (with_version stream st).
  intros st0 Hu Hst. unfold update_bookmarks in Hu. unfold_monad.
  rewrite truthy_nonempty in Hu by done. simpl in Hu.
  repeat case_match; simplify_eq; try done;
    by eapply merge_bookmarks_nonempty.
Qed.

Lemma update_bookmarks_path_ok stream latest_record st r st' :
  update_bookmarks g stream latest_record st = (r, st') →
  bookmark_path_ok st (tap_stream_id stream) = true →
  bookmark_path_ok st' (tap_stream_id stream) = true.
Proof.
  intros Hu Hok. rewrite update_bookmarks_version_phase in Hu.
  pose proof (with_version_nonempty stream st) as Hnon.
  apply (with_version_path_ok stream) in Hok.
  revert Hu Hnon Hok. generalize (with_version stream st).
  intros st0 Hu Hst Hok. unfold update_bookmarks in Hu. unfold_monad.
  rewrite truthy_nonempty in Hu by done. simpl in Hu.
  repeat case_match; simplify_eq; try done;
    by eapply merge_bookmarks_path_ok.
Qed.

End MoreBookmarkProofs.

(** X3. Whatever the record and whatever the outcome, [update_bookmarks]
    changes nothing but the stream's own bookmark, and there at most the
    keys [version], [last_pk_fetched], [replication_key] and
    [replication_key_value]: the bookmarks of all other streams and all
    other entries of the state are as they were. *)
Theorem update_bookmarks_touches_own_bookmark_only
    (g : string → result value) (stream : Stream)
    (latest_record : option pydict) (st : pydict) :
  (∀ id k, id ≠ tap_stream_id stream →
     get_bookmark (update_bookmarks g stream latest_record st).2 id k
     = get_bookmark st id k)
  ∧ (∀ k, k ∉ ["version"; "last_pk_fetched"; "replication_key";
               "replication_key_value"] →
     get_bookmark (update_bookmarks g stream latest_record st).2
       (tap_stream_id stream) k
     = get_bookmark st (tap_stream_id stream) k)
  ∧ (∀ key, key ≠ "bookmarks" →
     (update_bookmarks g stream latest_record st).2 !! key = st !! key).
Proof.
  destruct (update_bookmarks g stream latest_record st) as [r st'] eqn:Hu.
  simpl. split_and!.
  - intros id k Hid. rewrite update_bookmarks_version_phase in Hu.
    rewrite (update_bookmarks_frame g stream latest_record _ r st' id k
               (with_version_nonempty stream st) Hu) by (by left).
    rewrite get_bookmark_with_version.
    case_bool_decide as Hst; [|done]. subst st.
    rewrite get_bookmark_empty. by rewrite bool_decide_eq_false_2 by tauto.
  - intros k Hk. rewrite update_bookmarks_version_phase in Hu.
    rewrite !not_elem_of_cons in Hk. destruct Hk as (Hv & H1 & H2 & H3 & _).
    rewrite (update_bookmarks_frame g stream latest_record _ r st'
               (tap_stream_id stream) k (with_version_nonempty stream st) Hu).
    2:{ right. rewrite !not_elem_of_cons. split_and!; try done.
        apply not_elem_of_nil. }
    rewrite get_bookmark_with_version.
    case_bool_decide as Hst; [|done]. subst st.
    rewrite get_bookmark_empty. by rewrite bool_decide_eq_false_2 by tauto.
  - intros key Hkey. by eapply update_bookmarks_toplevel.
Qed.

(** X4. A record that has fields but not the stream's replication key
    makes [update_bookmarks] raise [KeyError] for that key; nothing of
    the record is stored, the state is the one found but for the version
    marker an empty state receives before. *)
Theorem update_bookmarks_missing_replication_key
    (g : string → result value) (stream : Stream) (rk : string)
    (record st : pydict) :
  replication_method stream ∈ ["INCREMENTAL"; "LOG_BASED"] →
  replication_key stream = Some rk →
  record ≠ ∅ →
  record !! rk = None →
  update_bookmarks g stream (Some record) st
  = (Raise (KeyError rk), with_version stream st).
Proof.
  intros Hm Hrk Hne Hnone. rewrite update_bookmarks_version_phase.
  rewrite (update_bookmarks_incremental g stream rk);
    [|apply with_version_nonempty|done|done|by apply truthy_nonempty].
  unfold getitem. by rewrite Hnone.
Qed.

Lemma update_bookmarks_missing_replication_key_witness :
  update_bookmarks no_such_attribute IssuesByUpdate (Some record_without_key)
    state_with_projects
  = (Raise (KeyError "updated_at"), state_with_projects).
Proof.
  apply (update_bookmarks_missing_replication_key no_such_attribute
           IssuesByUpdate "updated_at" record_without_key state_with_projects).
  - apply elem_of_cons. left. reflexivity.
  - reflexivity.
  - apply insert_non_empty.
  - reflexivity.
Defined.

(** X5. A stream whose replication method is none of FULL_TABLE,
    INCREMENTAL and LOG_BASED, or is INCREMENTAL or LOG_BASED without a
    replication key, gets no bookmark from any record: the call returns
    and stores at most the version marker. *)
Theorem update_bookmarks_nothing_to_store
    (g : string → result value) (stream : Stream)
    (latest_record : option pydict) (st : pydict) :
  replication_method stream ∉ ["FULL_TABLE"; "INCREMENTAL"; "LOG_BASED"]
  ∨ (replication_method stream ≠ "FULL_TABLE" ∧ replication_key stream = None) →
  update_bookmarks g stream latest_record st = (Ok tt, with_version stream st).
Proof.
  intros Hcase. rewrite update_bookmarks_version_phase.
  pose proof (with_version_nonempty stream st) as Hnon.
  revert Hnon. generalize (with_version stream st). intros st0 Hst.
  unfold update_bookmarks. unfold_monad.
  rewrite truthy_nonempty by done. simpl.
  destruct latest_record as [record|]; [|done].
  destruct (truthy (VDict record)); [|done].
  destruct Hcase as [Hnot|[Hft Hrk]].
  - rewrite !not_elem_of_cons in Hnot. destruct Hnot as (H1 & H2 & H3 & _).
    rewrite bool_decide_eq_false_2 by done.
    rewrite bool_decide_eq_false_2; [done|].
    rewrite !elem_of_cons, elem_of_nil. tauto.
  - rewrite bool_decide_eq_false_2 by done. rewrite Hrk.
    by case_bool_decide.
Qed.

Lemma update_bookmarks_nothing_to_store_witness :
  update_bookmarks no_such_attribute UnknownMethodStream (Some record_7)
    state_with_projects
  = (Ok tt, state_with_projects).
Proof.
  apply (update_bookmarks_nothing_to_store no_such_attribute
           UnknownMethodStream (Some record_7) state_with_projects).
  left. rewrite !not_elem_of_cons. split_and!; try discriminate.
  apply not_elem_of_nil.
Defined.

Lemma merge_bookmarks_same stream nb : ∀ st,
  (∀ kv, kv ∈ nb → get_bookmark st (tap_stream_id stream) kv.1 = Some kv.2) →
  merge_bookmarks stream nb st = (Ok tt, st).
Proof.
  induction nb as [|[k v] nb IH]; intros st Hall; [done|].
  rewrite merge_bookmarks_cons.
  rewrite (write_bookmark_same st (tap_stream_id stream) k v).
  - apply IH. intros kv Hkv. apply Hall. apply elem_of_cons. by right.
  - apply (Hall (k, v)). apply elem_of_cons. by left.
Qed.

(** X6. [update_bookmarks] is idempotent: when a call returns, the same
    call on the state it left returns again and leaves that state as it
    is. *)
Theorem update_bookmarks_idempotent
    (g : string → result value) (stream : Stream)
    (latest_record : option pydict) (st st1 : pydict) :
  update_bookmarks g stream latest_record st = (Ok tt, st1) →
  update_bookmarks g stream latest_record st1 = (Ok tt, st1).
Proof.
  intros Hu.
  pose proof (update_bookmarks_keeps_nonempty g _ _ _ _ _ Hu) as Hst1.
  rewrite update_bookmarks_version_phase in Hu.
  pose proof (with_version_nonempty stream st) as Hnon.
  revert Hu Hnon. generalize (with_version stream st). intros st0 Hu Hst0.
  unfold update_bookmarks in *. unfold_monad.
  rewrite truthy_nonempty in Hu by done. rewrite truthy_nonempty by done.
  simpl in *.
  destruct latest_record as [record|]; [|by simplify_eq].
  destruct (truthy (VDict record)); [|by simplify_eq].
  case_bool_decide.
  - destruct (g "max_pk_values") as [m|e]; [|done].
    destruct (truthy m); [|by simplify_eq].
    rewrite (merge_bookmarks_same stream _ st1); [done|].
    intros kv Hkv. apply list_elem_of_singleton in Hkv as ->. simpl.
    destruct (merge_bookmarks stream _ st0) as [[[]|e] st2] eqn:Hm;
      simplify_eq. by eapply merge_bookmarks_single.
  - case_bool_decide; [|by simplify_eq].
    destruct (replication_key stream) as [rk|]; [|by simplify_eq].
    destruct (getitem record rk) as [v|e]; [|done].
    destruct (merge_bookmarks stream _ st0) as [[[]|e] st2] eqn:Hm;
      simplify_eq.
    rewrite (merge_bookmarks_same stream _ st1); [done|].
    pose proof (merge_bookmarks_last stream [("replication_key", VStr rk)]
                  "replication_key_value" v st0 st1 Hm) as Hv.
    intros kv Hkv. rewrite !elem_of_cons, elem_of_nil in Hkv.
    destruct Hkv as [->|[->|[]]]; simpl; [|done].
    rewrite merge_bookmarks_cons in Hm.
    destruct (write_bookmark st0 (tap_stream_id stream) "replication_key"
                (VStr rk)) as [st2|e] eqn:Hw; [|done].
    rewrite (merge_bookmarks_frame stream _ st2 (Ok tt) st1
               (tap_stream_id stream) "replication_key" Hm).
    + by eapply write_bookmark_lookup.
    + right. simpl. rewrite not_elem_of_cons. split; [done|apply not_elem_of_nil].
Qed.

Lemma update_bookmarks_idempotent_witness :
  update_bookmarks no_such_attribute IssuesByUpdate (Some record_7)
    (update_bookmarks no_such_attribute IssuesByUpdate (Some record_7) ∅).2
  = (Ok tt,
     (update_bookmarks no_such_attribute IssuesByUpdate (Some record_7) ∅).2).
Proof.
  apply (update_bookmarks_idempotent no_such_attribute IssuesByUpdate
           (Some record_7) ∅).
  reflexivity.
Defined.

(** X7. Where the lookup [singer._get_bookmark("max_pk_values")] yields
    a true value, a FULL_TABLE stream keeps the primary-key values of the
    last record: after the records of a sequence, [last_pk_fetched] maps
    each primary key the last record has to the record's value and has
    no other key.  A primary key the record lacks is left out, it is not
    an error. *)
Theorem update_bookmarks_full_table_last_record
    (g : string → result value) (stream : Stream) (m : value)
    (st : pydict) (records : list pydict) (last : pydict) :
  replication_method stream = "FULL_TABLE" →
  g "max_pk_values" = Ok m → truthy m = true →
  bookmark_path_ok st (tap_stream_id stream) = true →
  last ≠ ∅ →
  ∃ st' pks,
    update_bookmarks_each g stream (records ++ [last]) st = (Ok tt, st')
    ∧ get_bookmark st' (tap_stream_id stream) "last_pk_fetched"
      = Some (VDict pks)
    ∧ ∀ k, pks !! k
           = if bool_decide (k ∈ primary_keys_or_empty stream)
             then last !! k else None.
Proof.
  intros Hm Hg Ht Hok Hlast. revert st Hok.
  induction records as [|r rs IH]; intros st Hok.
  - simpl. rewrite update_bookmarks_each_cons.
    destruct (update_bookmarks_full_table_found g stream last st m)
      as (st' & -> & Hv); try done.
    exists st', (pk_values stream last). split_and!; try done.
    intros k. apply pk_values_lookup.
  - simpl. rewrite update_bookmarks_each_cons.
    destruct (update_bookmarks g stream (Some r) st) as [res st1] eqn:Hu.
    pose proof (update_bookmarks_path_ok g _ _ _ _ _ Hu Hok) as Hok1.
    destruct (decide (r = ∅)) as [->|Hr].
    + rewrite update_bookmarks_version_phase in Hu.
      rewrite update_bookmarks_falsy in Hu;
        [|apply with_version_nonempty|reflexivity].
      simplify_eq. by apply IH.
    + destruct (update_bookmarks_full_table_found g stream r st m)
        as (st2 & Hu2 & _); try done.
      rewrite Hu in Hu2. simplify_eq. by apply IH.
Qed.

Lemma update_bookmarks_full_table_last_record_witness :
  ∃ st' pks,
    update_bookmarks_each finds_values ProjectsStream ([record_3] ++ [record_7]) ∅
    = (Ok tt, st')
    ∧ get_bookmark st' (tap_stream_id ProjectsStream) "last_pk_fetched"
      = Some (VDict pks)
    ∧ ∀ k, pks !! k
           = if bool_decide (k ∈ primary_keys_or_empty ProjectsStream)
             then record_7 !! k else None.
Proof.
  apply (update_bookmarks_full_table_last_record finds_values ProjectsStream
           (VBool true) ∅ [record_3] record_7).
  - reflexivity.
  - reflexivity.
  - reflexivity.
  - reflexivity.
  - apply insert_non_empty.
Defined.

(** X8. After any call of [update_bookmarks] the state is not empty, so
    the version marker is written at most once in the life of a state:
    a later call, for whichever stream and record, leaves the version
    entry of every stream as it is. *)
Theorem version_marker_written_at_most_once
    (g : string → result value) (stream stream' : Stream)
    (latest_record latest_record' : option pydict) (st : pydict) (id : string) :
  (update_bookmarks g stream latest_record st).2 ≠ ∅
  ∧ get_bookmark
      (update_bookmarks g stream' latest_record'
         (update_bookmarks g stream latest_record st).2).2 id "version"
    = get_bookmark (update_bookmarks g stream latest_record st).2 id "version".
Proof.
  destruct (update_bookmarks g stream latest_record st) as [r st1] eqn:Hu.
  simpl. pose proof (update_bookmarks_keeps_nonempty g _ _ _ _ _ Hu) as Hst1.
  split; [done|].
  destruct (update_bookmarks g stream' latest_record' st1) as [r' st2] eqn:Hu'.
  simpl.
  apply (update_bookmarks_frame g stream' latest_record' st1 r' st2 id "version"
           Hst1 Hu').
  right. rewrite !not_elem_of_cons. split_and!; try done.
  apply not_elem_of_nil.
Qed.

(** * Further properties of the tap *)

Lemma setitem_cons (d : stream_dict) k0 v0 k v :
  setitem ((k0, v0) :: d) k v
  = if bool_decide (k0 = k) then (k0, v) :: d else (k0, v0) :: setitem d k v.
Proof. reflexivity. Qed.




Lemma lookup_stream_setitem (d : stream_dict) k v k' :
  lookup_stream (setitem d k v) k'
  = if bool_decide (k = k') then Some v else lookup_stream d k'.
Proof.
  induction d as [|[k0 v0] d IH]; simpl.
  - by repeat case_bool_decide.
  - destruct (decide (k0 = k)) as [->|Hne].
    + rewrite (bool_decide_eq_true_2 (k = k)) by done. simpl.
      by repeat case_bool_decide.
    + rewrite (bool_decide_eq_false_2 (k0 = k)) by done. simpl.
      rewrite IH. repeat case_bool_decide; congruence.
Qed.


Section MoreTapProofs.

Variable load_streams : Tap → result (list Stream).
Variable apply_catalog : Stream → pydict → result Stream.



End MoreTapProofs.



Lemma setitem_fresh (d : stream_dict) k v :
  k ∉ d.*1 → setitem d k v = d ++ [(k, v)].
Proof.
  induction d as [|[k0 v0] d IH]; [done|].
  rewrite fmap_cons, not_elem_of_cons. simpl fst. intros [Hne Hnin].
  rewrite setitem_cons.
  rewrite (bool_decide_eq_false_2 (k0 = k)) by congruence.
  by rewrite IH.
Qed.

Lemma foldl_setitem_distinct (loaded : list Stream) : ∀ d : stream_dict,
  NoDup (d.*1 ++ (name <$> loaded)) →
  foldl (λ d s, setitem d (name s) s) d loaded
  = d ++ ((λ s, (name s, s)) <$> loaded).
Proof.
  induction loaded as [|s loaded IH]; intros d Hnodup.
  - simpl. by rewrite app_nil_r.
  - simpl. rewrite fmap_cons in Hnodup.
    apply NoDup_app in Hnodup as (Hd & Hdisj & Hl).
    apply NoDup_cons in Hl as [Hs Hl].
    assert (Hfresh : name s ∉ d.*1).
    { intros Hin. apply (Hdisj _ Hin). apply elem_of_cons. by left. }
    rewrite (setitem_fresh d (name s) s Hfresh).
    rewrite IH.
    + by rewrite <-app_assoc.
    + rewrite fmap_app. simpl. rewrite <-app_assoc. simpl.
      apply NoDup_app. split_and!; [done| |by apply NoDup_cons].
      intros x Hx Hx'. apply elem_of_cons in Hx' as [->|Hx']; [done|].
      apply (Hdisj _ Hx). apply elem_of_cons. by right.
Qed.

Lemma lookup_stream_foldl_setitem (loaded : list Stream) k : ∀ d : stream_dict,
  lookup_stream (foldl (λ d s, setitem d (name s) s) d loaded) k
  = match last (filter (λ s, name s = k) loaded) with
    | Some s => Some s
    | None => lookup_stream d k
    end.
Proof.
  induction loaded as [|s loaded IH]; intros d; [done|].
  simpl. rewrite IH, lookup_stream_setitem.
  destruct (decide (name s = k)) as [Hk|Hk].
  - rewrite filter_cons_True by done. rewrite last_cons.
    rewrite bool_decide_eq_true_2 by done.
    by destruct (last (filter (λ s0, name s0 = k) loaded)).
  - rewrite filter_cons_False by done.
    by rewrite bool_decide_eq_false_2 by done.
Qed.

Section NoCatalog.

Variable load_streams : Tap → result (list Stream).
Variable apply_catalog : Stream → pydict → result Stream.

Lemma streams_loop_no_catalog loaded : ∀ self d,
  _streams self = Some d →
  opt_truthy (_input_catalog self) = false →
  ∃ self',
    for_each loaded (λ stream,
      do self <- get;
      do stream <-
        match _input_catalog self with
        | Some catalog =>
            if truthy (VDict catalog)
            then log (ApplyCatalog (name stream)) >>
                 lift (apply_catalog stream catalog)
            else ret stream
        | None => ret stream
        end;
      do self <- get;
      set_streams (setitem (default [] (_streams self)) (name stream) stream))
      self = (Ok tt, self')
    ∧ _streams self'
      = Some (foldl (λ d s, setitem d (name s) s) d loaded)
    ∧ trace self' = trace self
    ∧ same_run_data self self'.
Proof.
  unfold bind, get, log, lift, ret, set_streams.
  induction loaded as [|stream loaded IH]; intros self d Hd Hcat.
  - exists self. simpl. unfold ret. split_and!; try done.
  - simpl. unfold bind, ret.
    assert (Hstep :
      match _input_catalog self with
      | Some catalog =>
          if truthy (VDict catalog)
          then λ s : Tap,
                 (apply_catalog stream catalog,
                  {| tap_name := tap_name s; config := config s;
                     _input_catalog := _input_catalog s; _state := _state s;
                     _streams := _streams s;
                     trace := trace s ++ [ApplyCatalog (name stream)] |})
          else λ s : Tap, (Ok stream, s)
      | None => λ s : Tap, (Ok stream, s)
      end self = (Ok stream, self)).
    { unfold opt_truthy in Hcat. destruct (_input_catalog self); [|done].
      by rewrite Hcat. }
    simpl in Hstep |- *. unfold ret in *.
    match goal with
    | |- context [let (r0, s') := ?X in _] => change X with
        (match _input_catalog self with
         | Some catalog =>
             if truthy (VDict catalog)
             then λ s : Tap,
                    (apply_catalog stream catalog,
                     {| tap_name := tap_name s; config := config s;
                        _input_catalog := _input_catalog s; _state := _state s;
                        _streams := _streams s;
                        trace := trace s ++ [ApplyCatalog (name stream)] |})
             else λ s : Tap, (Ok stream, s)
         | None => λ s : Tap, (Ok stream, s)
         end self)
    end.
    rewrite Hstep. simpl. rewrite Hd. simpl.
    edestruct IH as (self' & -> & Hd' & Htr & Hsame); [reflexivity|exact Hcat|].
    exists self'. split_and!; try done.
    all: try (eapply same_run_data_trans; [|exact Hsame]; by unfold same_run_data).
Qed.

End NoCatalog.

(** X10. Without an input catalog (none, or an empty one) the first
    access to [streams] registers the streams [load_streams] returns,
    each under its name.  The stream found under a name is the last one
    loaded with that name; and where the names are distinct the mapping
    lists the streams exactly in the order in which they were loaded. *)
Theorem streams_registers_in_load_order
    (load_streams : Tap → result (list Stream))
    (apply_catalog : Stream → pydict → result Stream)
    (self : Tap) (loaded : list Stream) :
  _streams self = None →
  opt_truthy (_input_catalog self) = false →
  load_streams (at_load self) = Ok loaded →
  ∃ d, (streams load_streams apply_catalog self).1 = Ok d
       ∧ (∀ k, lookup_stream d k = last (filter (λ s, name s = k) loaded))
       ∧ (NoDup (name <$> loaded) →
          keys d = name <$> loaded ∧ values d = loaded).
Proof.
  intros Hnone Hcat Hload. unfold streams.
  unfold bind at 1. unfold get at 1. rewrite Hnone.
  unfold bind at 1. unfold set_streams at 1.
  unfold bind at 1. unfold log at 1. simpl.
  unfold bind at 1. unfold get at 1.
  unfold bind at 1. unfold lift at 1.
  change (load_streams _) with (load_streams (at_load self)). rewrite Hload.
  unfold bind at 1.
  edestruct (streams_loop_no_catalog apply_catalog loaded (at_load self) [])
    as (self' & Hloop & Hd' & _ & _); [reflexivity|exact Hcat|].
  unfold at_load in Hloop. rewrite Hloop.
  unfold bind at 1. unfold get at 1. unfold ret. rewrite Hd'. simpl.
  eexists. split; [reflexivity|]. split.
  - intros k. rewrite lookup_stream_foldl_setitem.
    by destruct (last (filter (λ s, name s = k) loaded)).
  - intros Hnodup. rewrite (foldl_setitem_distinct loaded []) by done.
    unfold keys, values. simpl. rewrite <-!list_fmap_compose. split.
    + done.
    + by rewrite list_fmap_id.
Qed.

Lemma streams_registers_in_load_order_witness :
  ∃ d, (streams loads_epic_issues_first catalog_changes_nothing
          (new_tap "tap-gitlab" ∅)).1 = Ok d
       ∧ values d = [EpicIssuesStream; EpicsStream].
Proof.
  destruct (streams_registers_in_load_order loads_epic_issues_first
              catalog_changes_nothing (new_tap "tap-gitlab" ∅)
              [EpicIssuesStream; EpicsStream] eq_refl eq_refl eq_refl)
    as (d & Hd & _ & Hord).
  exists d. split; [exact Hd|]. apply Hord.
  apply NoDup_cons. split.
  - rewrite list_elem_of_singleton. discriminate.
  - apply NoDup_singleton.
Defined.

(** X11. A failed load is not retried.  When [load_streams] raises on
    the first access to [streams], the exception reaches the caller, but
    the mapping is left set to the empty dict: the next access returns
    the empty mapping, [sync_all] then returns without syncing anything,
    and [sync_one] reports the stream as not found. *)
Theorem failed_load_leaves_empty_mapping
    (load_streams : Tap → result (list Stream))
    (apply_catalog : Stream → pydict → result Stream)
    (sync : Stream → M pydict unit) (repr : value → string)
    (self : Tap) (e : exn) (stream_name : string) :
  _streams self = None →
  load_streams (at_load self) = Raise e →
  streams load_streams apply_catalog self = (Raise e, at_load self)
  ∧ streams load_streams apply_catalog (at_load self) = (Ok [], at_load self)
  ∧ sync_all load_streams apply_catalog sync (at_load self)
    = (Ok tt, at_load self)
  ∧ sync_one load_streams apply_catalog sync repr stream_name (at_load self)
    = (Raise (ValueError
         ("Could not find stream '" ++ stream_name ++ "' in streams list: "
          ++ repr (VList (VStr <$> sorted []))))%string, at_load self).
Proof.
  intros Hnone Hload.
  assert (Hc : streams load_streams apply_catalog (at_load self)
               = (Ok [], at_load self)) by by apply streams_cached.
  split_and!.
  - unfold streams.
    unfold bind at 1. unfold get at 1. rewrite Hnone.
    unfold bind at 1. unfold set_streams at 1.
    unfold bind at 1. unfold log at 1. simpl.
    unfold bind at 1. unfold get at 1.
    unfold bind at 1. unfold lift at 1.
    change (load_streams _) with (load_streams (at_load self)).
    by rewrite Hload.
  - done.
  - unfold sync_all. unfold bind at 1. by rewrite Hc.
  - unfold sync_one. unfold bind at 1. rewrite Hc.
    unfold contains. rewrite bool_decide_eq_false_2 by apply not_elem_of_nil.
    simpl. unfold bind at 1. by rewrite Hc.
Qed.

Lemma failed_load_leaves_empty_mapping_witness :
  streams load_fails catalog_changes_nothing (new_tap "tap-gitlab" ∅)
  = (Raise (ValueError "no streams"), at_load (new_tap "tap-gitlab" ∅))
  ∧ sync_all load_fails catalog_changes_nothing sync_finds_nothing
      (at_load (new_tap "tap-gitlab" ∅))
    = (Ok tt, at_load (new_tap "tap-gitlab" ∅)).
Proof.
  destruct (failed_load_leaves_empty_mapping load_fails catalog_changes_nothing
              sync_finds_nothing repr_elided (new_tap "tap-gitlab" ∅)
              (ValueError "no streams") "epics" eq_refl eq_refl)
    as (H1 & _ & H3 & _).
  by split.
Defined.

Lemma for_each_app {S A} (xs ys : list A) (body : A → M S unit) (s : S) :
  for_each (xs ++ ys) body s
  = match for_each xs body s with
    | (Ok _, s') => for_each ys body s'
    | (Raise e, s') => (Raise e, s')
    end.
Proof.
  revert s. induction xs as [|x xs IH]; intros s; [done|].
  simpl. unfold bind. destruct (body x s) as [[[]|e] s1]; [apply IH|done].
Qed.

Lemma sync_loop_state sync ss : ∀ self,
  (for_each ss (run_sync sync) self).1 = Ok tt →
  _state (for_each ss (run_sync sync) self).2
  = foldl (λ st s, (sync s st).2) (_state self) ss.
Proof.
  induction ss as [|s ss IH]; intros self Hok; [done|].
  simpl in *. unfold bind in *. rewrite run_sync_eq in *.
  destruct (sync s (_state self)) as [[[]|e] st'] eqn:Hs; simpl in *; [|done].
  by rewrite IH.
Qed.

(** X12. [sync_all] stops at the first stream whose sync raises: the
    exception is the result, the streams registered after it are not
    begun, and the state is the one the failing sync left, with all that
    the streams before it stored. *)
Theorem sync_all_stops_at_first_failure
    (load_streams : Tap → result (list Stream))
    (apply_catalog : Stream → pydict → result Stream)
    (sync : Stream → M pydict unit)
    (self self1 self2 : Tap) (d : stream_dict)
    (before after : list Stream) (s : Stream) (e : exn) :
  streams load_streams apply_catalog self = (Ok d, self1) →
  values d = before ++ s :: after →
  for_each before (run_sync sync) self1 = (Ok tt, self2) →
  (sync s (_state self2)).1 = Raise e →
  (sync_all load_streams apply_catalog sync self).1 = Raise e
  ∧ trace (sync_all load_streams apply_catalog sync self).2
    = trace self1 ++ sync_schedule before ++ [SyncBegin (name s)]
  ∧ _state (sync_all load_streams apply_catalog sync self).2
    = (sync s (foldl (λ st s, (sync s st).2) (_state self) before)).2.
Proof.
  intros Hs Hvals Hbefore Hfail.
  assert (Heq : sync_all load_streams apply_catalog sync self
                = for_each (values d) (run_sync sync) self1).
  { unfold sync_all. unfold bind at 1. by rewrite Hs. }
  rewrite Heq, Hvals, for_each_app, Hbefore. simpl. unfold bind.
  rewrite run_sync_eq. rewrite Hfail. simpl.
  destruct (sync_loop sync before self1) as (n & _ & Htr).
  rewrite Hbefore in Htr. simpl in Htr.
  pose proof (sync_loop_state sync before self1) as Hst.
  rewrite Hbefore in Hst. simpl in Hst.
  destruct (streams_access load_streams apply_catalog self)
    as (r & self1' & d1 & Hs' & _ & _ & _ & _ & Hsame).
  rewrite Hs in Hs'. injection Hs' as <- <-.
  destruct Hsame as (_ & _ & _ & Hstate).
  split_and!; [done| |].
  - rewrite (Htr eq_refl). by rewrite <-app_assoc.
  - by rewrite (Hst eq_refl), Hstate.
Qed.

Lemma sync_all_stops_at_first_failure_witness :
  (sync_all loads_epics_first catalog_changes_nothing sync_fails_for_epics
     (new_tap "tap-gitlab" ∅)).1 = Raise (ValueError "fetch failed")
  ∧ trace (sync_all loads_epics_first catalog_changes_nothing
             sync_fails_for_epics (new_tap "tap-gitlab" ∅)).2
    = [LoadStreams] ++ sync_schedule [] ++ [SyncBegin "epics"].
Proof.
  destruct (sync_all_stops_at_first_failure loads_epics_first
              catalog_changes_nothing sync_fails_for_epics
              (new_tap "tap-gitlab" ∅) _ _ epics_first
              [] [EpicIssuesStream] EpicsStream (ValueError "fetch failed")
              eq_refl eq_refl eq_refl eq_refl) as (H1 & H2 & _).
  by split.
Defined.

(** X13. When every sync returns, [sync_all] returns, and the state it
    leaves is the state threaded through the syncs of the streams in the
    order of the mapping. *)
Theorem sync_all_threads_state
    (load_streams : Tap → result (list Stream))
    (apply_catalog : Stream → pydict → result Stream)
    (sync : Stream → M pydict unit)
    (self self1 : Tap) (d : stream_dict) :
  streams load_streams apply_catalog self = (Ok d, self1) →
  (sync_all load_streams apply_catalog sync self).1 = Ok tt →
  _state (sync_all load_streams apply_catalog sync self).2
  = foldl (λ st s, (sync s st).2) (_state self) (values d)
  ∧ trace (sync_all load_streams apply_catalog sync self).2
    = trace self1 ++ sync_schedule (values d).
Proof.
  intros Hs.
  assert (Heq : sync_all load_streams apply_catalog sync self
                = for_each (values d) (run_sync sync) self1).
  { unfold sync_all. unfold bind at 1. by rewrite Hs. }
  rewrite Heq. intros Hok.
  destruct (streams_access load_streams apply_catalog self)
    as (r & self1' & d1 & Hs' & _ & _ & _ & _ & Hsame).
  rewrite Hs in Hs'. injection Hs' as <- <-.
  destruct Hsame as (_ & _ & _ & Hstate).
  split.
  - by rewrite (sync_loop_state sync (values d) self1 Hok), Hstate.
  - destruct (sync_loop sync (values d) self1) as (n & _ & Htr). by apply Htr.
Qed.

Lemma sync_all_threads_state_witness :
  _state (sync_all loads_epics_first catalog_changes_nothing
            sync_finds_nothing (new_tap "tap-gitlab" ∅)).2
  = foldl (λ st s, (sync_finds_nothing s st).2) ∅ (values epics_first).
Proof.
  apply (sync_all_threads_state loads_epics_first catalog_changes_nothing
           sync_finds_nothing (new_tap "tap-gitlab" ∅) _ epics_first eq_refl
           eq_refl).
Defined.

(** * Further properties of the sample GitLab streams *)

Lemma free_of_cons c c' s :
  free_of c (String c' s) ↔ c ≠ c' ∧ free_of c s.
Proof. unfold free_of. simpl. by rewrite not_elem_of_cons. Qed.

Lemma free_of_nil c : free_of c "".
Proof. unfold free_of. simpl. apply not_elem_of_nil. Qed.

Lemma free_of_app c s1 s2 :
  free_of c (s1 ++ s2)%string ↔ free_of c s1 ∧ free_of c s2.
Proof.
  induction s1 as [|c' s1 IH].
  - simpl. split; [intros ?; split; [apply free_of_nil|done]|by intros [_ ?]].
  - change (String c' s1 ++ s2)%string with (String c' (s1 ++ s2)%string).
    rewrite !free_of_cons, IH. tauto.
Qed.

Lemma string_app_nil_r (s : string) : (s ++ "")%string = s.
Proof.
  induction s as [|c s IH]; [done|].
  change (String c (s ++ "")%string = String c s). by rewrite IH.
Qed.

Lemma split_cons sep c s :
  split sep (String c s)
  = if bool_decide (c = sep) then "" :: split sep s
    else match split sep s with
         | x :: xs => String c x :: xs
         | [] => [String c ""]
         end.
Proof. reflexivity. Qed.

(** [split] always yields a first part. *)
Lemma split_first sep s : ∃ p ps, split sep s = p :: ps.
Proof.
  induction s as [|c s (p & ps & IH)]; [by exists "", []|].
  rewrite split_cons, IH. case_bool_decide; eauto.
Qed.

Lemma split_free sep s : free_of sep s → split sep s = [s].
Proof.
  induction s as [|c s IH]; [done|].
  rewrite free_of_cons. intros [Hne Hfree].
  rewrite split_cons, bool_decide_eq_false_2 by congruence.
  by rewrite IH.
Qed.

Lemma split_app_free sep a s :
  free_of sep a →
  ∃ p ps, split sep s = p :: ps
          ∧ split sep (a ++ s)%string = (a ++ p)%string :: ps.
Proof.
  destruct (split_first sep s) as (p & ps & Hs).
  intros Hfree. exists p, ps. split; [done|].
  induction a as [|c a IH]; [done|].
  apply free_of_cons in Hfree as [Hne Hfree].
  change (String c a ++ s)%string with (String c (a ++ s)%string).
  rewrite split_cons, bool_decide_eq_false_2 by congruence.
  by rewrite (IH Hfree).
Qed.

Lemma split_parts_free sep c s :
  free_of c s → Forall (free_of c) (split sep s).
Proof.
  induction s as [|c' s IH]; intros Hfree.
  - apply Forall_singleton. apply free_of_nil.
  - apply free_of_cons in Hfree as [Hne Hfree]. specialize (IH Hfree).
    rewrite split_cons. case_bool_decide.
    + apply Forall_cons. split; [apply free_of_nil|done].
    + destruct (split sep s) as [|x xs].
      * apply Forall_singleton. apply free_of_cons. split; [done|apply free_of_nil].
      * apply Forall_cons in IH as [Hx Hxs]. apply Forall_cons.
        split; [by apply free_of_cons|done].
Qed.

(** The parameters for the binding [key=x] read from the text [text]
    that goes on after it. *)
Lemma get_params_binding config key x text :
  free_of "," key → free_of "=" key → free_of "," x → free_of "=" x →
  (text = "" ∨ (∃ rest, text = String "," rest)
   ∨ (∃ rest, text = String "=" rest)) →
  GitlabStream_get_params config (key ++ String "=" (x ++ text))
  = Ok (<["start_date" := dict_get config "start_date"]>
          {["project_id" := VStr x]}).
Proof.
  intros Hk1 Hk2 Hx1 Hx2 Htext. unfold GitlabStream_get_params.
  assert (Hhead : ∃ tail ps,
            split "," (key ++ String "=" (x ++ text))
            = (key ++ String "=" (x ++ tail))%string :: ps
            ∧ (tail = "" ∨ ∃ rest, tail = String "=" rest)).
  { destruct (split_app_free "," key (String "=" (x ++ text)) Hk1)
      as (p & ps & Hp & ->).
    rewrite split_cons, bool_decide_eq_false_2 in Hp by discriminate.
    destruct (split_app_free "," x text Hx1) as (q & qs & Hq & Hxq).
    rewrite Hxq in Hp. injection Hp as <- <-.
    exists q, qs. split; [done|].
    destruct Htext as [->|[[rest ->]|[rest ->]]].
    - left. by injection Hq as <- _.
    - left. rewrite split_cons, bool_decide_eq_true_2 in Hq by done.
      by injection Hq as <- _.
    - right. rewrite split_cons, bool_decide_eq_false_2 in Hq by discriminate.
      destruct (split "," rest) as [|y ys]; injection Hq as <- _; eauto. }
  destruct Hhead as (tail & ps & -> & Htail). simpl.
  destruct (split_app_free "=" key (String "=" (x ++ tail)) Hk2)
    as (p & ps' & Hp & ->).
  rewrite split_cons, bool_decide_eq_true_2 in Hp by done.
  injection Hp as <- <-.
  destruct (split_app_free "=" x tail Hx2) as (q & qs & Hq & ->).
  assert (q = "") as ->.
  { destruct Htail as [->|[rest ->]].
    - by injection Hq as <- _.
    - rewrite split_cons, bool_decide_eq_true_2 in Hq by done.
      by injection Hq as <- _. }
  simpl. by rewrite string_app_nil_r.
Qed.

(** X14. [GitlabStream.get_params] reads the first binding of the
    substream id and nothing else: for a key and a value without [,] and
    [=], the id [key=value] gives [project_id = value] (and [start_date]
    from the configuration), and so does the id followed by [,] and any
    further text, or by [=] and any further text.  A value that itself
    holds a [,] or a [=] is therefore cut at that character. *)
Theorem get_params_reads_first_binding
    (config : pydict) (key x rest : string) :
  free_of "," key → free_of "=" key → free_of "," x → free_of "=" x →
  GitlabStream_get_params config (key ++ String "=" x)
  = Ok (<["start_date" := dict_get config "start_date"]>
          {["project_id" := VStr x]})
  ∧ GitlabStream_get_params config (key ++ String "=" (x ++ String "," rest))
    = Ok (<["start_date" := dict_get config "start_date"]>
            {["project_id" := VStr x]})
  ∧ GitlabStream_get_params config (key ++ String "=" (x ++ String "=" rest))
    = Ok (<["start_date" := dict_get config "start_date"]>
            {["project_id" := VStr x]}).
Proof.
  intros Hk1 Hk2 Hx1 Hx2. split_and!.
  - rewrite <-(string_app_nil_r x) at 1.
    apply get_params_binding; try done. by left.
  - apply get_params_binding; try done. right. left. by eexists.
  - apply get_params_binding; try done. right. right. by eexists.
Qed.

Ltac prove_free_of :=
  unfold free_of; simpl;
  repeat (apply not_elem_of_cons; split; [discriminate|]);
  apply not_elem_of_nil.

Lemma get_params_reads_first_binding_witness :
  GitlabStream_get_params gitlab_config "project_id=ns/proj=x"
  = Ok (<["start_date" := dict_get gitlab_config "start_date"]>
          {["project_id" := VStr "ns/proj"]}).
Proof.
  apply (get_params_reads_first_binding gitlab_config "project_id" "ns/proj" "x");
    prove_free_of.
Defined.

(** X15. A substream id without any [=] has no binding to read:
    [GitlabStream.get_params] raises [IndexError]. *)
Theorem get_params_without_binding (config : pydict) (substream_id : string) :
  free_of "=" substream_id →
  GitlabStream_get_params config substream_id = Raise IndexError.
Proof.
  intros Hfree. unfold GitlabStream_get_params.
  destruct (split_first "," substream_id) as (p & ps & Hs).
  pose proof (split_parts_free "," "=" substream_id Hfree) as Hparts.
  rewrite Hs in Hparts. apply Forall_cons in Hparts as [Hp _].
  rewrite Hs. simpl. by rewrite (split_free "=" p Hp).
Qed.

Lemma get_params_without_binding_witness :
  GitlabStream_get_params gitlab_config "ns/proj,other" = Raise IndexError.
Proof.
  apply (get_params_without_binding gitlab_config "ns/proj,other").
  prove_free_of.
Defined.

(** X16. The substream ids of a project-based stream and [get_params]
    fit together: for configured project ids that are strings without
    [,] and [=], the ids are ["project_id=" + id] in the configured
    order, and [get_params] of each gives back its project id. *)
Theorem substream_ids_give_back_project_ids
    (repr : value → string) (iter_str_or_dict : value → list value)
    (config : pydict) (ids : list string) :
  config !! "project_ids" = Some (VList (VStr <$> ids)) →
  Forall (λ id, free_of "," id ∧ free_of "=" id) ids →
  get_substream_ids repr iter_str_or_dict config
  = Ok ((λ id, "project_id=" ++ id)%string <$> ids)
  ∧ Forall (λ id,
      GitlabStream_get_params config ("project_id=" ++ id)%string
      = Ok (<["start_date" := dict_get config "start_date"]>
              {["project_id" := VStr id]})) ids.
Proof.
  intros Hids Hfree. split.
  - unfold get_substream_ids, dict_get. rewrite Hids. simpl.
    by rewrite <-list_fmap_compose.
  - eapply Forall_impl; [exact Hfree|]. intros id [H1 H2]. simpl in *.
    apply (get_params_reads_first_binding config "project_id" id "");
      try done; prove_free_of.
Qed.

Lemma substream_ids_give_back_project_ids_witness :
  get_substream_ids repr_elided iter_elided gitlab_config
  = Ok ["project_id=ns/proj"]
  ∧ Forall (λ id,
      GitlabStream_get_params gitlab_config ("project_id=" ++ id)%string
      = Ok (<["start_date" := dict_get gitlab_config "start_date"]>
              {["project_id" := VStr id]})) ["ns/proj"].
Proof.
  apply (substream_ids_give_back_project_ids repr_elided iter_elided
           gitlab_config ["ns/proj"]).
  - reflexivity.
  - apply Forall_singleton. split; prove_free_of.
Defined.

(** X17. Without configured [project_ids] (the key missing, or [None])
    a project-based stream has no substream ids to offer:
    [get_substream_ids] raises [TypeError], it does not return an empty
    list. *)
Theorem get_substream_ids_without_project_ids
    (repr : value → string) (iter_str_or_dict : value → list value)
    (config : pydict) :
  config !! "project_ids" = None ∨ config !! "project_ids" = Some VNone →
  get_substream_ids repr iter_str_or_dict config = Raise TypeError.
Proof.
  intros [H|H]; unfold get_substream_ids, dict_get; by rewrite H.
Qed.

Lemma get_substream_ids_without_project_ids_witness :
  get_substream_ids repr_elided iter_elided ∅ = Raise TypeError.
Proof.
  apply (get_substream_ids_without_project_ids repr_elided iter_elided ∅).
  left. reflexivity.
Defined.

(** X18. The request headers of a GitLab stream always carry
    [Private-Token], with the configured [auth_token] or [None] where
    none is configured; they carry [User-Agent] exactly when a
    [user_agent] with a true value is configured (an empty string counts
    as none), and they carry nothing else. *)
Theorem authenticator_http_headers_entries (config : pydict) :
  authenticator_http_headers config !! "Private-Token"
  = Some (dict_get config "auth_token")
  ∧ authenticator_http_headers config !! "User-Agent"
    = (if truthy (dict_get config "user_agent")
       then Some (dict_get config "user_agent") else None)
  ∧ (∀ k, k ≠ "Private-Token" → k ≠ "User-Agent" →
          authenticator_http_headers config !! k = None)
  ∧ (config !! "user_agent" = Some (VStr "") →
     authenticator_http_headers config !! "User-Agent" = None).
Proof.
  unfold authenticator_http_headers. split_and!.
  - destruct (truthy (dict_get config "user_agent")).
    + by rewrite lookup_insert_ne, lookup_singleton_eq.
    + by rewrite lookup_singleton_eq.
  - destruct (truthy (dict_get config "user_agent")).
    + by rewrite lookup_insert_eq.
    + by rewrite lookup_singleton_ne.
  - intros k H1 H2. destruct (truthy (dict_get config "user_agent")).
    + rewrite lookup_insert_ne by done. by rewrite lookup_singleton_ne.
    + by rewrite lookup_singleton_ne.
  - intros Hua. unfold dict_get. rewrite Hua. simpl.
    by rewrite lookup_singleton_ne.
Qed.

Lemma authenticator_http_headers_entries_witness :
  authenticator_http_headers {["user_agent" := VStr ""]} !! "User-Agent" = None.
Proof.
  apply (authenticator_http_headers_entries {["user_agent" := VStr ""]}).
  reflexivity.
Defined.

(** * The catalog in the stream mapping *)

Section WithCatalog.

Variable load_streams : Tap → result (list Stream).
Variable apply_catalog : Stream → pydict → result Stream.

Lemma streams_loop_catalog catalog (f : Stream → Stream) loaded : ∀ self d,
  _streams self = Some d →
  _input_catalog self = Some catalog →
  truthy (VDict catalog) = true →
  (∀ s, s ∈ loaded → apply_catalog s catalog = Ok (f s)) →
  ∃ self',
    for_each loaded (λ stream,
      do self <- get;
      do stream <-
        match _input_catalog self with
        | Some catalog =>
            if truthy (VDict catalog)
            then log (ApplyCatalog (name stream)) >>
                 lift (apply_catalog stream catalog)
            else ret stream
        | None => ret stream
        end;
      do self <- get;
      set_streams (setitem (default [] (_streams self)) (name stream) stream))
      self = (Ok tt, self')
    ∧ _streams self'
      = Some (foldl (λ d s, setitem d (name s) s) d (f <$> loaded))
    ∧ trace self' = trace self ++ (ApplyCatalog <$> (name <$> loaded))
    ∧ same_run_data self self'.
Proof.
  unfold bind, get, log, lift, ret, set_streams.
  induction loaded as [|stream loaded IH]; intros self d Hd Hcat Ht Hf.
  - exists self. simpl. unfold ret. rewrite app_nil_r. split_and!; try done.
  - simpl. unfold bind, ret. rewrite Hcat, Ht.
    rewrite (Hf stream) by (apply elem_of_cons; by left).
    simpl. rewrite Hd. simpl.
    edestruct IH as (self' & -> & Hd' & Htr & Hsame);
      [reflexivity|exact Hcat|exact Ht| |].
    { intros s Hs. apply Hf. apply elem_of_cons. by right. }
    exists self'. split_and!; try done.
    all: try (rewrite Htr; simpl; by rewrite <-app_assoc).
    all: try (eapply same_run_data_trans; [|exact Hsame]; by unfold same_run_data).
Qed.

End WithCatalog.

(** The first access to [streams], step by step: one load, then the
    catalog on each loaded stream if there is a catalog, then the
    registration of the streams. *)
Lemma streams_first_access
    (load_streams : Tap → result (list Stream))
    (apply_catalog : Stream → pydict → result Stream)
    (self : Tap) (loaded : list Stream) (f : Stream → Stream) :
  _streams self = None →
  load_streams (at_load self) = Ok loaded →
  (∀ catalog s, _input_catalog self = Some catalog → s ∈ loaded →
                apply_catalog s catalog = Ok (f s)) →
  (opt_truthy (_input_catalog self) = true →
   (streams load_streams apply_catalog self).1
   = Ok (foldl (λ d s, setitem d (name s) s) [] (f <$> loaded))
   ∧ trace (streams load_streams apply_catalog self).2
     = trace self ++ LoadStreams :: (ApplyCatalog <$> (name <$> loaded)))
  ∧ (opt_truthy (_input_catalog self) = false →
     (streams load_streams apply_catalog self).1
     = Ok (foldl (λ d s, setitem d (name s) s) [] loaded)
     ∧ trace (streams load_streams apply_catalog self).2
       = trace self ++ [LoadStreams]).
Proof.
  intros Hnone Hload Hf.
  assert (Hunfold : ∀ self' d',
    for_each loaded (λ stream,
      do self <- get;
      do stream <-
        match _input_catalog self with
        | Some catalog =>
            if truthy (VDict catalog)
            then log (ApplyCatalog (name stream)) >>
                 lift (apply_catalog stream catalog)
            else ret stream
        | None => ret stream
        end;
      do self <- get;
      set_streams (setitem (default [] (_streams self)) (name stream) stream))
      (at_load self) = (Ok tt, self') →
    _streams self' = Some d' →
    streams load_streams apply_catalog self = (Ok d', self')).
  { intros self' d' Hloop Hd'. unfold streams.
    unfold bind at 1. unfold get at 1. rewrite Hnone.
    unfold bind at 1. unfold set_streams at 1.
    unfold bind at 1. unfold log at 1. simpl.
    unfold bind at 1. unfold get at 1.
    unfold bind at 1. unfold lift at 1.
    change (load_streams _) with (load_streams (at_load self)). rewrite Hload.
    unfold bind at 1. unfold at_load in Hloop. rewrite Hloop.
    unfold bind at 1. unfold get at 1. unfold ret. by rewrite Hd'. }
  split.
  - intros Hcat. unfold opt_truthy in Hcat.
    destruct (_input_catalog self) as [catalog|] eqn:Hc; [|done].
    edestruct (streams_loop_catalog apply_catalog catalog f loaded
                 (at_load self) [])
      as (self' & Hloop & Hd' & Htr & _); [reflexivity|exact Hc|exact Hcat| |].
    { intros s Hs. by apply Hf. }
    rewrite (Hunfold self' _ Hloop Hd'). simpl. split; [done|].
    rewrite Htr. simpl. by rewrite <-app_assoc.
  - intros Hcat.
    edestruct (streams_loop_no_catalog apply_catalog loaded (at_load self) [])
      as (self' & Hloop & Hd' & Htr & _); [reflexivity|exact Hcat|].
    rewrite (Hunfold self' _ Hloop Hd'). simpl. split; [done|].
    by rewrite Htr.
Qed.

(** X19. The catalog is applied once to each loaded stream, in load
    order and before the stream is registered: with an input catalog
    that is not empty and an [apply_catalog] that returns for every
    loaded stream, the first access to [streams] calls [load_streams]
    once, then [apply_catalog] once per loaded stream, and registers the
    streams as those calls left them.  With no catalog, or an empty
    one, [apply_catalog] is not called at all. *)
Theorem streams_applies_catalog_once_per_stream
    (load_streams : Tap → result (list Stream))
    (apply_catalog : Stream → pydict → result Stream)
    (self : Tap) (loaded : list Stream) (f : Stream → Stream) :
  _streams self = None →
  load_streams (at_load self) = Ok loaded →
  (∀ catalog s, _input_catalog self = Some catalog → s ∈ loaded →
                apply_catalog s catalog = Ok (f s)) →
  (opt_truthy (_input_catalog self) = true →
   (streams load_streams apply_catalog self).1
   = Ok (foldl (λ d s, setitem d (name s) s) [] (f <$> loaded))
   ∧ trace (streams load_streams apply_catalog self).2
     = trace self ++ LoadStreams :: (ApplyCatalog <$> (name <$> loaded)))
  ∧ (opt_truthy (_input_catalog self) = false →
     (streams load_streams apply_catalog self).1
     = Ok (foldl (λ d s, setitem d (name s) s) [] loaded)
     ∧ trace (streams load_streams apply_catalog self).2
       = trace self ++ [LoadStreams]).
Proof. apply streams_first_access. Qed.

Lemma streams_applies_catalog_once_per_stream_witness :
  trace (streams loads_epics_first catalog_sets_version tap_with_catalog).2
  = [] ++ LoadStreams :: (ApplyCatalog <$> ["epics"; "epic_issues"]).
Proof.
  apply (streams_applies_catalog_once_per_stream loads_epics_first
           catalog_sets_version tap_with_catalog
           [EpicsStream; EpicIssuesStream]
           (λ s, match catalog_sets_version s ∅ with
                 | Ok s' => s' | Raise _ => s end)
           eq_refl eq_refl).
  - intros catalog s _ _. reflexivity.
  - reflexivity.
Defined.

(** * The cached stream mapping (C9) *)

Lemma loads_apply_catalog names :
  List.filter is_load_event (ApplyCatalog <$> names) = [].
Proof. induction names; simpl; done. Qed.

Lemma streams_failed_load
    (load_streams : Tap → result (list Stream))
    (apply_catalog : Stream → pydict → result Stream) (self : Tap) (e : exn) :
  _streams self = None →
  load_streams (at_load self) = Raise e →
  streams load_streams apply_catalog self = (Raise e, at_load self).
Proof.
  intros Hnone Hload. unfold streams.
  unfold bind at 1. unfold get at 1. rewrite Hnone.
  unfold bind at 1. unfold set_streams at 1.
  unfold bind at 1. unfold log at 1. simpl.
  unfold bind at 1. unfold get at 1.
  unfold bind at 1. unfold lift at 1.
  change (load_streams _) with (load_streams (at_load self)).
  by rewrite Hload.
Qed.

(** C9. The stream mapping is built on the first access and cached in
    the instance.  A tap that holds a mapping returns it and does nothing
    else.  A tap that holds none builds it: it calls [load_streams]
    exactly once, applies the catalog to each loaded stream if a catalog
    is given, and registers the streams under their names; what the
    build leaves in place is what any later access returns, unchanged,
    so that any two accesses that return, return the same mapping, and
    after any number of accesses the load has still run exactly once. *)
Theorem streams_built_once_and_cached
    (load_streams : Tap → result (list Stream))
    (apply_catalog : Stream → pydict → result Stream)
    (self : Tap) (n : nat) :
  ∃ d, _streams (streams load_streams apply_catalog self).2 = Some d
       ∧ (∀ d1, (streams load_streams apply_catalog self).1 = Ok d1 → d1 = d)
       ∧ streams load_streams apply_catalog
           (streams load_streams apply_catalog self).2
         = (Ok d, (streams load_streams apply_catalog self).2)
       ∧ access_streams (streams load_streams apply_catalog) (S n) self
         = (streams load_streams apply_catalog self).2
       ∧ (∀ d0, _streams self = Some d0 →
            streams load_streams apply_catalog self = (Ok d0, self))
       ∧ (_streams self = None →
            loads (trace (access_streams (streams load_streams apply_catalog)
                            (S n) self))
            = loads (trace self) + 1
            ∧ (∀ e, load_streams (at_load self) = Raise e →
                 (streams load_streams apply_catalog self).1 = Raise e
                 ∧ d = [])
            ∧ (∀ loaded f,
                 load_streams (at_load self) = Ok loaded →
                 (∀ catalog s, _input_catalog self = Some catalog →
                    s ∈ loaded → apply_catalog s catalog = Ok (f s)) →
                 (streams load_streams apply_catalog self).1 = Ok d
                 ∧ d = foldl (λ d s, setitem d (name s) s) []
                         (if opt_truthy (_input_catalog self)
                          then f <$> loaded else loaded)
                 ∧ trace (streams load_streams apply_catalog self).2
                   = trace self ++ LoadStreams ::
                       (if opt_truthy (_input_catalog self)
                        then ApplyCatalog <$> (name <$> loaded) else []))).
Proof.
  destruct (streams_access load_streams apply_catalog self)
    as (r & self1 & d1 & Hs & Hd1 & Hr & _ & _ & _).
  pose proof (streams_cached load_streams apply_catalog self1 d1 Hd1) as Hc.
  assert (Hacc : access_streams (streams load_streams apply_catalog) (S n) self
                 = self1).
  { simpl. rewrite Hs. simpl. by eapply access_streams_fixed. }
  rewrite Hacc, Hs. simpl. exists d1.
  split_and!; try done.
  - intros d0 Hd0. rewrite <-Hs. by apply streams_cached.
  - intros Hnone. split_and!.
    + destruct (streams_build load_streams apply_catalog self Hnone)
        as (r' & self1' & d1' & names & Hs' & _ & _ & Htr & _).
      rewrite Hs in Hs'. injection Hs' as <- <-.
      rewrite Htr. unfold loads.
      rewrite List.filter_app, length_app. simpl.
      by rewrite loads_apply_catalog.
    + intros e Hload.
      pose proof (streams_failed_load load_streams apply_catalog
                    self e Hnone Hload) as Hfail.
      rewrite Hs in Hfail. injection Hfail as -> ->.
      split; [done|]. simpl in Hd1. by injection Hd1 as <-.
    + intros loaded f Hload Hf.
      destruct (streams_first_access load_streams apply_catalog self loaded f
                  Hnone Hload Hf) as [Htrue Hfalse].
      rewrite Hs in Htrue, Hfalse. simpl in Htrue, Hfalse.
      destruct (opt_truthy (_input_catalog self)).
      * destruct (Htrue eq_refl) as [Hres Htr]. rewrite Hres in *.
        rewrite <-(Hr _ eq_refl). by split_and!.
      * destruct (Hfalse eq_refl) as [Hres Htr]. rewrite Hres in *.
        rewrite <-(Hr _ eq_refl). by split_and!.
Qed.

Lemma streams_built_once_and_cached_witness :
  loads (trace (access_streams
                  (streams loads_epics_first catalog_changes_nothing) 3
                  (new_tap "tap-gitlab" ∅)))
  = loads (trace (new_tap "tap-gitlab" ∅)) + 1
  ∧ (streams loads_epics_first catalog_changes_nothing
       (new_tap "tap-gitlab" ∅)).1 = Ok epics_first.
Proof.
  destruct (streams_built_once_and_cached loads_epics_first
              catalog_changes_nothing (new_tap "tap-gitlab" ∅) 2)
    as (d & _ & _ & _ & _ & _ & Hfresh).
  destruct (Hfresh eq_refl) as (Hloads & _ & Hbuild).
  split; [exact Hloads|].
  destruct (Hbuild [EpicsStream; EpicIssuesStream] (λ s, s) eq_refl)
    as (Hres & Hd & _).
  - intros catalog s Hcat. discriminate Hcat.
  - rewrite Hres. f_equal. exact Hd.
Defined.

(** * The order of [sync_all] against the declared parents (C2) *)

(** C2, evaluated.  [EpicIssuesStream] declares [EpicsStream] as its
    parent, with the note that it should wait for parents to complete.
    A tap whose [load_streams] lists the issues of epics before the
    epics resolves its mapping in that order, and [sync_all] follows the
    mapping: the sync of [epic_issues] begins and ends before any sync of
    [epics] has begun.  The order is not a topological sort of the
    parent graph. *)
Theorem sync_all_begins_child_before_parent :
  parent_stream_types EpicIssuesStream = ["epics"]
  ∧ (streams loads_epic_issues_first catalog_changes_nothing
       (new_tap "tap-gitlab" ∅)).1 = Ok epic_issues_first
  ∧ sync_all loads_epic_issues_first catalog_changes_nothing
      sync_finds_nothing (new_tap "tap-gitlab" ∅)
    = (Ok tt,
       {| tap_name := "tap-gitlab"; config := ∅; _input_catalog := None;
          _state := ∅; _streams := Some epic_issues_first;
          trace := [LoadStreams;
                    SyncBegin "epic_issues"; SyncEnd "epic_issues";
                    SyncBegin "epics"; SyncEnd "epics"] |})
  ∧ ¬ parents_complete_first epic_issues_first
        [LoadStreams;
         SyncBegin "epic_issues"; SyncEnd "epic_issues";
         SyncBegin "epics"; SyncEnd "epics"].
Proof.
  split_and!; try reflexivity.
  intros H. destruct (H 1 EpicIssuesStream "epics") as (j & Hj & Hev).
  - apply elem_of_cons. by left.
  - reflexivity.
  - apply elem_of_cons. by left.
  - assert (j = 0) as -> by lia. discriminate Hev.
Qed.
